(** * TX Engine: per-frame budget ledgers

    A shallow embedding of [TXFrameMemoryBudget.cpp]: the frame memory budget
    ledger ([TX::FrameMemoryBudgetSystem], unsigned 64-bit byte counters) and
    the error budget ledger ([TX::ErrorBudgetSystem], IEEE-754 binary32
    counters), followed by the properties of their admission control, reset
    and query operations.

    Modelling conventions.
    - [uint64_t] is a [Z] in [0, 2^64); every arithmetic operation of the
      source is written with its reduction modulo 2^64 ([U64.add], ...).
    - [float] is [spec_float] at precision 24 and exponent bound 128
      (binary32), with the operations of the standard library's executable
      IEEE-754 specification, which round to nearest, ties to even.  The
      expressions of the source are evaluated in binary32 throughout (no
      extended intermediate precision).
    - The C arrays [Budgets[Count]] are lists indexed by the ordinal of the
      enumerator; a ledger is well formed when its list has [Count] entries.
    - A member function [void f(args)] is a function from the ledger to the
      ledger; [bool Request(..)] returns the verdict and the new ledger.
    - The conversion [(float)x] of a [uint64_t] is the binary32 number
      nearest to [x] ([F32.of_Z]), as [GetUsageRatio] needs it. *)

From Stdlib Require Import ZArith Lia Bool.
From Stdlib Require Import Floats.SpecFloat.
From stdpp Require Import base list.

Local Open Scope Z_scope.

(** ** Unsigned 64-bit arithmetic *)

Module U64.

Definition modulus : Z := 2 ^ 64.

Definition wrap (x : Z) : Z := x mod modulus.

Definition in_range (x : Z) : Prop := 0 <= x < modulus.

Definition add (a b : Z) : Z := wrap (a + b).
Definition sub (a b : Z) : Z := wrap (a - b).
Definition mul (a b : Z) : Z := wrap (a * b).
Definition div (a b : Z) : Z := a / b.

End U64.

(** ** Binary32 arithmetic *)

Module F32.

Definition prec : Z := 24.
Definition emax : Z := 128.

Definition float : Type := spec_float.

Definition add : float -> float -> float := SFadd prec emax.
Definition mul : float -> float -> float := SFmul prec emax.
Definition div : float -> float -> float := SFdiv prec emax.

(** [a < b], [a > b], [a <= b] and [a == b] of C++: false on NaN. *)
Definition lt (a b : float) : bool := SFltb a b.
Definition gt (a b : float) : bool := SFltb b a.
Definition le (a b : float) : bool := SFleb a b.
Definition eq (a b : float) : bool := SFeqb a b.

(** [std::max(a, b)] is [(a < b) ? b : a]. *)
Definition max (a b : float) : float := if lt a b then b else a.

Definition is_nan (a : float) : bool :=
  match a with S754_nan => true | _ => false end.

Definition is_zero (a : float) : bool :=
  match a with S754_zero _ => true | _ => false end.

Definition is_finite (a : float) : bool :=
  match a with S754_zero _ | S754_finite _ _ _ => true | _ => false end.

Definition valid (a : float) : bool := valid_binary prec emax a.

(** Neither zero nor NaN, with the given sign. *)
Definition nonzero_with_sign (sx : bool) (r : float) : Prop :=
  match r with
  | S754_finite s _ _ | S754_infinity s => s = sx
  | _ => False
  end.

(** The binary32 value of an integer literal. *)
Definition of_Z (n : Z) : float := binary_normalize prec emax n 0 false.

(** The literals of the source: [0.0f], [1.0f], [0.5f] are exact; the
    others are the binary32 numbers nearest to the decimal literal. *)
Definition zero : float := S754_zero false.
Definition one : float := S754_finite false 8388608 (-23).
Definition half : float := S754_finite false 8388608 (-24).
Definition c0_8 : float := S754_finite false 13421773 (-24).
Definition c0_6 : float := S754_finite false 10066330 (-24).
Definition c0_7 : float := S754_finite false 11744051 (-24).
Definition c0_9 : float := S754_finite false 15099494 (-24).

Definition nan : float := S754_nan.

End F32.

(** ** The frame memory budget ledger *)

Module FrameMemoryBudgetSystem.

(** The enumerators before [Count]; [Count] itself is the array size and
    indexing [Budgets] with it is out of bounds. *)
Inductive FrameMemoryDomain : Type :=
| Geometry
| Animation
| Textures
| Particles
| AI
| Audio
| Physics
| UI.

#[global] Instance FrameMemoryDomain_eq_dec : EqDecision FrameMemoryDomain.
Proof. solve_decision. Defined.

Definition Count : nat := 8.

(** The cast [(uint8_t)domain]. *)
Definition index (domain : FrameMemoryDomain) : nat :=
  match domain with
  | Geometry => 0
  | Animation => 1
  | Textures => 2
  | Particles => 3
  | AI => 4
  | Audio => 5
  | Physics => 6
  | UI => 7
  end%nat.

Definition domains : list FrameMemoryDomain :=
  [Geometry; Animation; Textures; Particles; AI; Audio; Physics; UI].

Record FrameMemoryBudget : Type := mkBudget {
  MaxBytes : Z;
  UsedBytes : Z
}.

#[global] Instance FrameMemoryBudget_inhabited : Inhabited FrameMemoryBudget :=
  populate (mkBudget 0 0).

Record t : Type := mkSystem {
  Budgets : list FrameMemoryBudget;
  TotalBudget : Z
}.

(** [Budgets[(uint8_t)domain]] *)
Definition budget_of (s : t) (domain : FrameMemoryDomain) : FrameMemoryBudget :=
  Budgets s !!! index domain.

(** [Reset]: [memset] of the whole array, then [TotalBudget = 0]. *)
Definition Reset (s : t) : t :=
  {| Budgets := replicate Count (mkBudget 0 0); TotalBudget := 0 |}.

(** The constructor [FrameMemoryBudgetSystem()] runs [Reset] on the
    uninitialised object. *)
Definition create (uninit : t) : t := Reset uninit.

Definition Initialize (totalFrameBudget : Z) (s : t) : t :=
  let share (p : Z) := mkBudget (U64.div (U64.mul totalFrameBudget p) 100) 0 in
  let b := Budgets s in
  let b := <[index Geometry := share 30]> b in
  let b := <[index Textures := share 25]> b in
  let b := <[index Animation := share 10]> b in
  let b := <[index Particles := share 8]> b in
  let b := <[index Physics := share 8]> b in
  let b := <[index AI := share 7]> b in
  let b := <[index Audio := share 6]> b in
  let b := <[index UI := share 6]> b in
  {| Budgets := b; TotalBudget := totalFrameBudget |}.

(** [for (i = 0; i < Count; ++i) Budgets[i].UsedBytes = 0;] *)
Definition BeginFrame (s : t) : t :=
  {| Budgets :=
       fold_left
         (fun b i => alter (fun e => mkBudget (MaxBytes e) 0) i b)
         (seq 0 Count) (Budgets s);
     TotalBudget := TotalBudget s |}.

Definition Request (domain : FrameMemoryDomain) (bytes : Z) (s : t) : bool * t :=
  let budget := budget_of s domain in
  if U64.add (UsedBytes budget) bytes >? MaxBytes budget then (false, s)
  else
    (true,
     {| Budgets :=
          <[index domain :=
              mkBudget (MaxBytes budget) (U64.add (UsedBytes budget) bytes)]>
            (Budgets s);
        TotalBudget := TotalBudget s |}).

Definition GetRemaining (domain : FrameMemoryDomain) (s : t) : Z :=
  let budget := budget_of s domain in
  if MaxBytes budget >? UsedBytes budget
  then U64.sub (MaxBytes budget) (UsedBytes budget)
  else 0.

Definition GetTotalRemaining (s : t) : Z :=
  let used :=
    fold_left (fun u i => U64.add u (UsedBytes (Budgets s !!! i)))
      (seq 0 Count) 0 in
  if TotalBudget s >? used then U64.sub (TotalBudget s) used else 0.

(** Well-formed ledgers: [Count] entries, every field a [uint64_t]. *)
Definition budget_ok (e : FrameMemoryBudget) : Prop :=
  U64.in_range (MaxBytes e) /\ U64.in_range (UsedBytes e).

Definition wf (s : t) : Prop :=
  length (Budgets s) = Count /\
  Forall budget_ok (Budgets s) /\
  U64.in_range (TotalBudget s).

(** The conservation invariant: no domain has consumed more than its limit. *)
Definition conserved (s : t) : Prop :=
  forall domain, UsedBytes (budget_of s domain) <= MaxBytes (budget_of s domain).

(** The ledgers a client can build through the public interface. *)
Inductive reachable : t -> Prop :=
| reach_create uninit :
    wf uninit -> reachable (create uninit)
| reach_Initialize total s :
    reachable s -> U64.in_range total -> reachable (Initialize total s)
| reach_BeginFrame s :
    reachable s -> reachable (BeginFrame s)
| reach_Request domain bytes s :
    reachable s -> U64.in_range bytes -> reachable (snd (Request domain bytes s))
| reach_Reset s :
    reachable s -> reachable (Reset s).

(** The ledger after each call of a sequence of requests. *)
Fixpoint request_trace (calls : list (FrameMemoryDomain * Z)) (s : t) : list t :=
  match calls with
  | [] => []
  | (domain, bytes) :: rest =>
      let s' := snd (Request domain bytes s) in
      s' :: request_trace rest s'
  end.

(** The table of percentages as the specification lists it. *)
Definition fixedPercentage (domain : FrameMemoryDomain) : Z :=
  match domain with
  | Geometry => 30
  | Textures => 25
  | Animation => 10
  | Particles => 8
  | Physics => 8
  | AI => 7
  | Audio => 6
  | UI => 6
  end.

Definition sum_limits (s : t) : Z :=
  foldr (fun e acc => MaxBytes e + acc) 0 (Budgets s).

Definition GetUsageRatio (domain : FrameMemoryDomain) (s : t) : F32.float :=
  let budget := budget_of s domain in
  F32.div (F32.of_Z (UsedBytes budget)) (F32.of_Z (MaxBytes budget)).

Definition IsDomainCritical (domain : FrameMemoryDomain) (s : t) : bool :=
  F32.gt (GetUsageRatio domain s) F32.c0_9.

(** The exact (unbounded) sum of the counters, and of what each domain has
    left. *)
Definition sum_used (s : t) : Z :=
  foldr (fun e acc => UsedBytes e + acc) 0 (Budgets s).

Definition sum_remaining (s : t) : Z :=
  foldr (fun domain acc => GetRemaining domain s + acc) 0 domains.

(** The largest limit [Initialize] can produce: [(2^64 - 1) / 100]. *)
Definition limit_cap : Z := (U64.modulus - 1) / 100.

Definition capped (s : t) : Prop :=
  forall domain, MaxBytes (budget_of s domain) <= limit_cap.

(** The ledger after a whole sequence of requests. *)
Definition request_all (calls : list (FrameMemoryDomain * Z)) (s : t) : t :=
  fold_left (fun s c => snd (Request (fst c) (snd c) s)) calls s.

End FrameMemoryBudgetSystem.

(** ** The error budget ledger *)

Module ErrorBudgetSystem.

Inductive ErrorType : Type :=
| Spatial
| Temporal
| Shading
| Reflection
| Volumetric.

#[global] Instance ErrorType_eq_dec : EqDecision ErrorType.
Proof. solve_decision. Defined.

Definition ERROR_TYPE_COUNT : nat := 5.

(** The cast [(uint32_t)type]. *)
Definition index (type : ErrorType) : nat :=
  match type with
  | Spatial => 0
  | Temporal => 1
  | Shading => 2
  | Reflection => 3
  | Volumetric => 4
  end%nat.

Definition types : list ErrorType :=
  [Spatial; Temporal; Shading; Reflection; Volumetric].

Record ErrorBudget : Type := mkBudget {
  Current : F32.float;
  Limit : F32.float
}.

#[global] Instance ErrorBudget_inhabited : Inhabited ErrorBudget :=
  populate (mkBudget F32.zero F32.zero).

#[global] Instance float_inhabited : Inhabited F32.float :=
  populate F32.zero.

Record PerceptualState : Type := mkPerceptual {
  CameraVelocity : F32.float;
  FocusDepth : F32.float;
  Luminance : F32.float
}.

Record t : Type := mkSystem {
  Budgets : list ErrorBudget
}.

Definition BaseLimits : list F32.float :=
  [F32.one; F32.c0_8; F32.c0_6; F32.half; F32.c0_7].

Definition budget_of (s : t) (type : ErrorType) : ErrorBudget :=
  Budgets s !!! index type.

Definition Reset (s : t) : t :=
  {| Budgets :=
       fold_left
         (fun b i => alter (fun _ => mkBudget F32.zero (BaseLimits !!! i)) i b)
         (seq 0 ERROR_TYPE_COUNT) (Budgets s) |}.

(** The constructor [ErrorBudgetSystem()] runs [Reset] on the uninitialised
    object. *)
Definition create (uninit : t) : t := Reset uninit.

Definition AdaptToPerception (p : PerceptualState) (s : t) : t :=
  let set_limit (type : ErrorType) (l : F32.float) (b : list ErrorBudget) :=
    alter (fun e => mkBudget (Current e) l) (index type) b in
  let b := Budgets s in
  let b :=
    set_limit Temporal
      (F32.mul (BaseLimits !!! index Temporal)
         (F32.add F32.one (CameraVelocity p))) b in
  let b :=
    set_limit Spatial
      (F32.mul (BaseLimits !!! index Spatial)
         (F32.add F32.one (F32.mul (Luminance p) F32.half))) b in
  let b :=
    set_limit Reflection
      (F32.mul (BaseLimits !!! index Reflection)
         (F32.add F32.one (FocusDepth p))) b in
  {| Budgets := b |}.

Definition Request (type : ErrorType) (amount : F32.float) (s : t) : bool * t :=
  let B := budget_of s type in
  if F32.gt (F32.add (Current B) amount) (Limit B) then (false, s)
  else
    (true,
     {| Budgets :=
          <[index type := mkBudget (F32.add (Current B) amount) (Limit B)]>
            (Budgets s) |}).

Definition Saturation (s : t) : F32.float :=
  fold_left
    (fun maxSat i =>
       F32.max maxSat
         (F32.div (Current (Budgets s !!! i)) (Limit (Budgets s !!! i))))
    (seq 0 ERROR_TYPE_COUNT) F32.zero.

Definition GetUsage (type : ErrorType) (s : t) : F32.float :=
  F32.div (Current (budget_of s type)) (Limit (budget_of s type)).

Definition wf (s : t) : Prop := length (Budgets s) = ERROR_TYPE_COUNT.

(** The conservation invariant, with the comparison of binary32. *)
Definition conserved (s : t) : Prop :=
  forall type, F32.le (Current (budget_of s type)) (Limit (budget_of s type)) = true.

(** [Shading] and [Volumetric] are written by [Reset] only, so their limits
    stay at the base constants. *)
Definition pinned (s : t) : Prop :=
  Limit (budget_of s Shading) = BaseLimits !!! index Shading /\
  Limit (budget_of s Volumetric) = BaseLimits !!! index Volumetric.

Inductive reachable : t -> Prop :=
| reach_create uninit :
    wf uninit -> reachable (create uninit)
| reach_Reset s :
    reachable s -> reachable (Reset s)
| reach_AdaptToPerception p s :
    reachable s -> reachable (AdaptToPerception p s)
| reach_Request type amount s :
    reachable s -> reachable (snd (Request type amount s)).

Fixpoint request_trace (calls : list (ErrorType * F32.float)) (s : t) : list t :=
  match calls with
  | [] => []
  | (type, amount) :: rest =>
      let s' := snd (Request type amount s) in
      s' :: request_trace rest s'
  end.

End ErrorBudgetSystem.

Module Mem := FrameMemoryBudgetSystem.
Module Err := ErrorBudgetSystem.

(** A ledger just constructed: the constructor run on an uninitialised object
    of the right shape; what that object holds does not matter. *)
Definition fresh_memory : Mem.t :=
  Mem.create (Mem.mkSystem (replicate Mem.Count inhabitant) 0).

Definition fresh_error : Err.t :=
  Err.create (Err.mkSystem (replicate Err.ERROR_TYPE_COUNT inhabitant)).

(** ** Scenarios of the specification, run on the model *)

Example scenario_A :
  let s0 := Mem.Initialize 100000000 fresh_memory in
  let r1 := Mem.Request Mem.Geometry 20000000 s0 in
  let r2 := Mem.Request Mem.Geometry 15000000 (snd r1) in
  Mem.MaxBytes (Mem.budget_of s0 Mem.Geometry) = 30000000 /\
  fst r1 = true /\
  Mem.UsedBytes (Mem.budget_of (snd r1) Mem.Geometry) = 20000000 /\
  fst r2 = false /\
  snd r2 = snd r1 /\
  Mem.GetRemaining Mem.Geometry (snd r2) = 10000000.
Proof. vm_compute. repeat split; reflexivity. Qed.

Example scenario_B_C :
  let p := Err.mkPerceptual F32.half F32.zero F32.zero in
  let s0 := Err.AdaptToPerception p (Err.Reset fresh_error) in
  let r1 := Err.Request Err.Temporal F32.one s0 in
  let r2 := Err.Request Err.Temporal F32.half (snd r1) in
  Err.Limit (Err.budget_of s0 Err.Temporal) = F32.div (F32.of_Z 12) (F32.of_Z 10) /\
  fst r1 = true /\
  fst r2 = false /\
  Err.Saturation (snd r2) = F32.div F32.one (F32.div (F32.of_Z 12) (F32.of_Z 10)).
Proof. vm_compute. repeat split; reflexivity. Qed.

(** The decimal literals of [BaseLimits] are the correctly rounded quotients. *)
Example literals_rounded :
  F32.c0_8 = F32.div (F32.of_Z 8) (F32.of_Z 10) /\
  F32.c0_6 = F32.div (F32.of_Z 6) (F32.of_Z 10) /\
  F32.c0_7 = F32.div (F32.of_Z 7) (F32.of_Z 10) /\
  F32.half = F32.div (F32.of_Z 5) (F32.of_Z 10) /\
  F32.one = F32.of_Z 1 /\
  forallb F32.valid Err.BaseLimits = true.
Proof. vm_compute. repeat split; reflexivity. Qed.

(** ** Facts about unsigned 64-bit arithmetic *)

Lemma modulus_value : U64.modulus = 18446744073709551616.
Proof. reflexivity. Qed.

Lemma wrap_small x : U64.in_range x -> U64.wrap x = x.
Proof. intros H. apply Z.mod_small. exact H. Qed.

Lemma wrap_in_range x : U64.in_range (U64.wrap x).
Proof. apply Z.mod_pos_bound. reflexivity. Qed.

Ltac u64 :=
  unfold U64.add, U64.sub, U64.mul, U64.div, U64.in_range in *;
  rewrite ?modulus_value in *.

(** ** The memory ledger as an eight-entry array *)

Section MemoryArray.

Import FrameMemoryBudgetSystem.

Lemma index_lt domain : (index domain < Count)%nat.
Proof. destruct domain; unfold Count; simpl; lia. Qed.

Lemma index_inj d1 d2 : index d1 = index d2 -> d1 = d2.
Proof. destruct d1, d2; simpl; intros H; congruence. Qed.

Lemma budgets_shape (l : list FrameMemoryBudget) :
  length l = Count ->
  exists b0 b1 b2 b3 b4 b5 b6 b7, l = [b0; b1; b2; b3; b4; b5; b6; b7].
Proof.
  unfold Count. intros H.
  do 8 (destruct l as [|? l]; [discriminate H|]).
  destruct l; [|discriminate H].
  do 8 eexists. reflexivity.
Qed.

Lemma budget_of_ok s domain : wf s -> budget_ok (budget_of s domain).
Proof.
  intros (Hlen & Hall & _). unfold budget_of.
  rewrite Forall_lookup in Hall.
  destruct (lookup_lt_is_Some_2 (Budgets s) (index domain)) as [e He].
  { rewrite Hlen. apply index_lt. }
  rewrite (list_lookup_total_correct _ _ _ He). eauto.
Qed.

Lemma budget_of_insert_eq l t domain e :
  length l = Count ->
  budget_of (mkSystem (<[index domain := e]> l) t) domain = e.
Proof.
  intros Hlen. unfold budget_of. simpl.
  apply list_lookup_total_insert_eq. rewrite Hlen. apply index_lt.
Qed.

Lemma budget_of_insert_ne l t d d' e :
  d' <> d ->
  budget_of (mkSystem (<[index d := e]> l) t) d' = budget_of (mkSystem l t) d'.
Proof.
  intros Hne. unfold budget_of. simpl.
  apply list_lookup_total_insert_ne. intros Heq. apply Hne.
  symmetry. apply index_inj. exact Heq.
Qed.

Lemma Request_true domain bytes s :
  fst (Request domain bytes s) = true <->
  U64.add (UsedBytes (budget_of s domain)) bytes <= MaxBytes (budget_of s domain).
Proof.
  unfold Request.
  destruct (Z.gtb_spec (U64.add (UsedBytes (budget_of s domain)) bytes)
              (MaxBytes (budget_of s domain))); simpl; split; intros; try lia;
    congruence.
Qed.

Lemma Request_refused domain bytes s :
  fst (Request domain bytes s) = false -> snd (Request domain bytes s) = s.
Proof.
  unfold Request.
  destruct (_ >? _); simpl; [reflexivity | discriminate].
Qed.

Lemma Request_accepted domain bytes s :
  fst (Request domain bytes s) = true ->
  snd (Request domain bytes s) =
    {| Budgets :=
         <[index domain :=
             mkBudget (MaxBytes (budget_of s domain))
               (U64.add (UsedBytes (budget_of s domain)) bytes)]> (Budgets s);
       TotalBudget := TotalBudget s |}.
Proof.
  unfold Request.
  destruct (_ >? _); simpl; [discriminate | reflexivity].
Qed.

Lemma Request_wf domain bytes s : wf s -> wf (snd (Request domain bytes s)).
Proof.
  intros Hwf. destruct (fst (Request domain bytes s)) eqn:E.
  - rewrite (Request_accepted _ _ _ E).
    pose proof (budget_of_ok s domain Hwf) as [Hmax _].
    destruct Hwf as (Hlen & Hall & Htot).
    split; [|split]; simpl.
    + rewrite length_insert. exact Hlen.
    + apply Forall_insert; [exact Hall|].
      split; simpl; [exact Hmax | apply wrap_in_range].
    + exact Htot.
  - rewrite (Request_refused _ _ _ E). exact Hwf.
Qed.

Lemma Request_conserved domain bytes s :
  wf s -> conserved s -> conserved (snd (Request domain bytes s)).
Proof.
  intros Hwf Hc. destruct (fst (Request domain bytes s)) eqn:E.
  - pose proof (proj1 (Request_true _ _ _) E) as Hle.
    rewrite (Request_accepted _ _ _ E).
    destruct Hwf as (Hlen & _).
    intros d. destruct (decide (d = domain)) as [->|Hne].
    + rewrite budget_of_insert_eq by exact Hlen. simpl. exact Hle.
    + rewrite budget_of_insert_ne by exact Hne.
      destruct s; apply Hc.
  - rewrite (Request_refused _ _ _ E). exact Hc.
Qed.

End MemoryArray.

Section MemoryReachable.

Import FrameMemoryBudgetSystem.

Lemma BeginFrame_budgets s :
  length (Budgets s) = Count ->
  Budgets (BeginFrame s) = map (fun e => mkBudget (MaxBytes e) 0) (Budgets s).
Proof.
  intros Hlen. destruct (budgets_shape _ Hlen) as (b0&b1&b2&b3&b4&b5&b6&b7&E).
  unfold BeginFrame. simpl. rewrite E. reflexivity.
Qed.

Lemma budget_of_BeginFrame s domain :
  length (Budgets s) = Count ->
  budget_of (BeginFrame s) domain = mkBudget (MaxBytes (budget_of s domain)) 0.
Proof.
  intros Hlen. unfold budget_of. rewrite (BeginFrame_budgets s Hlen).
  destruct (budgets_shape _ Hlen) as (b0&b1&b2&b3&b4&b5&b6&b7&E).
  rewrite E. destruct domain; reflexivity.
Qed.

Lemma share_in_range total p :
  U64.in_range (U64.div (U64.mul total p) 100).
Proof.
  pose proof (wrap_in_range (total * p)) as H. unfold U64.mul.
  u64. split.
  - apply Z.div_pos; lia.
  - apply Z.div_lt_upper_bound; lia.
Qed.

Lemma Initialize_budgets total s :
  length (Budgets s) = Count ->
  Budgets (Initialize total s) =
    map (fun p => mkBudget (U64.div (U64.mul total p) 100) 0)
      [30; 10; 25; 8; 7; 6; 8; 6].
Proof.
  intros Hlen. destruct (budgets_shape _ Hlen) as (b0&b1&b2&b3&b4&b5&b6&b7&E).
  unfold Initialize. rewrite E. reflexivity.
Qed.

Lemma zero_in_range : U64.in_range 0.
Proof. u64. lia. Qed.

Lemma Reset_wf s : wf (Reset s).
Proof.
  split; [|split]; simpl.
  - reflexivity.
  - repeat constructor; simpl; apply zero_in_range.
  - apply zero_in_range.
Qed.

Lemma Initialize_wf total s :
  wf s -> U64.in_range total -> wf (Initialize total s).
Proof.
  intros (Hlen & _ & _) Ht. split; [|split].
  - rewrite (Initialize_budgets _ _ Hlen). reflexivity.
  - rewrite (Initialize_budgets _ _ Hlen). simpl.
    repeat constructor; simpl;
      first [apply share_in_range | apply zero_in_range].
  - exact Ht.
Qed.

Lemma BeginFrame_wf s : wf s -> wf (BeginFrame s).
Proof.
  intros (Hlen & Hall & Htot). split; [|split].
  - rewrite (BeginFrame_budgets _ Hlen), length_map. exact Hlen.
  - rewrite (BeginFrame_budgets _ Hlen). apply Forall_map.
    eapply Forall_impl; [exact Hall|].
    intros e [Hm _]. split; simpl; [exact Hm | apply zero_in_range].
  - exact Htot.
Qed.

Lemma Reset_conserved s : conserved (Reset s).
Proof. intros d. destruct d; simpl; lia. Qed.

Lemma Initialize_conserved total s : wf s -> conserved (Initialize total s).
Proof.
  intros (Hlen & _ & _) d. unfold budget_of.
  rewrite (Initialize_budgets _ _ Hlen).
  destruct d; simpl; apply share_in_range.
Qed.

Lemma BeginFrame_conserved s : wf s -> conserved (BeginFrame s).
Proof.
  intros Hwf d. pose proof (budget_of_ok s d Hwf) as [[Hm _] _].
  destruct Hwf as (Hlen & _ & _).
  rewrite (budget_of_BeginFrame _ _ Hlen). simpl. exact Hm.
Qed.

Lemma reachable_wf_conserved s : reachable s -> wf s /\ conserved s.
Proof.
  induction 1 as [u Hu | total s Hs [IHw IHc] Ht | s Hs [IHw IHc]
                 | d bytes s Hs [IHw IHc] Hb | s Hs [IHw IHc]].
  - split; [apply Reset_wf | apply Reset_conserved].
  - split; [apply Initialize_wf | apply Initialize_conserved]; assumption.
  - split; [apply BeginFrame_wf | apply BeginFrame_conserved]; assumption.
  - split; [apply Request_wf | apply Request_conserved]; assumption.
  - split; [apply Reset_wf | apply Reset_conserved].
Qed.

End MemoryReachable.

(** ** Facts about binary32 comparison and rounding *)

Section FloatOrder.

Implicit Types x y z : F32.float.

Lemma compare_antisym x y :
  SFcompare y x = option_map CompOpp (SFcompare x y).
Proof.
  destruct x as [sx|sx| |sx mx ex], y as [sy|sy| |sy my ey]; simpl;
    try reflexivity;
    try (destruct sx; reflexivity);
    try (destruct sy; reflexivity);
    try (destruct sx, sy; reflexivity).
  change (Pos.compare_cont Eq my mx) with (Pos.compare my mx).
  change (Pos.compare_cont Eq mx my) with (Pos.compare mx my).
  rewrite (Z.compare_antisym ex ey), (Pos.compare_antisym mx my).
  destruct sx, sy; simpl; try reflexivity;
    destruct (ex ?= ey); simpl; try reflexivity;
    destruct (mx ?= my)%positive; reflexivity.
Qed.

Lemma compare_defined x y :
  F32.is_nan x = false -> F32.is_nan y = false ->
  exists c, SFcompare x y = Some c.
Proof.
  destruct x, y; simpl; intros Hx Hy; try discriminate; eauto.
Qed.

(** Without NaN the order is total: not [x > y] is [x <= y]. *)
Lemma not_gt_le x y :
  F32.is_nan x = false -> F32.is_nan y = false ->
  F32.gt x y = false -> F32.le x y = true.
Proof.
  intros Hx Hy. unfold F32.gt, F32.le, SFltb, SFleb.
  rewrite (compare_antisym x y).
  destruct (compare_defined x y Hx Hy) as [c ->]. simpl.
  destruct c; simpl; congruence.
Qed.

Lemma not_lt_le x y :
  F32.is_nan x = false -> F32.is_nan y = false ->
  F32.lt x y = false -> F32.le y x = true.
Proof. intros Hx Hy. apply (not_gt_le y x Hy Hx). Qed.

Lemma lt_le x y : F32.lt x y = true -> F32.le x y = true.
Proof.
  unfold F32.lt, F32.le, SFltb, SFleb.
  destruct (SFcompare x y) as [[]|]; congruence.
Qed.

Lemma le_not_nan x y :
  F32.le x y = true -> F32.is_nan x = false /\ F32.is_nan y = false.
Proof.
  unfold F32.le, SFleb. destruct x, y; simpl; intros H; try discriminate; auto.
Qed.

Lemma le_refl x : F32.is_nan x = false -> F32.le x x = true.
Proof.
  unfold F32.le, SFleb.
  destruct x as [s|s| |s m e]; simpl; intros H; try discriminate;
    try reflexivity; try (destruct s; reflexivity).
  change (Pos.compare_cont Eq m m) with (Pos.compare m m).
  rewrite Z.compare_refl, Pos.compare_refl. destruct s; reflexivity.
Qed.

Lemma le_trans x y z :
  F32.le x y = true -> F32.le y z = true -> F32.le x z = true.
Proof.
  unfold F32.le, SFleb.
  destruct x as [sx|sx| |sx mx ex], y as [sy|sy| |sy my ey],
    z as [sz|sz| |sz mz ez]; simpl; try discriminate; try reflexivity;
    try (destruct sx; simpl; try discriminate; try reflexivity; fail);
    try (destruct sy; simpl; try discriminate; try reflexivity; fail);
    try (destruct sz; simpl; try discriminate; try reflexivity; fail);
    try (destruct sx, sy; simpl; try discriminate; try reflexivity; fail);
    try (destruct sx, sz; simpl; try discriminate; try reflexivity; fail);
    try (destruct sy, sz; simpl; try discriminate; try reflexivity; fail);
    try (destruct sx, sy, sz; simpl; try discriminate; try reflexivity; fail).
  change (Pos.compare_cont Eq mx my) with (Pos.compare mx my).
  change (Pos.compare_cont Eq my mz) with (Pos.compare my mz).
  change (Pos.compare_cont Eq mx mz) with (Pos.compare mx mz).
  destruct sx, sy, sz; simpl; try discriminate; try reflexivity;
    destruct (Z.compare_spec ex ey), (Z.compare_spec ey ez),
      (Z.compare_spec ex ez); simpl; try discriminate; try reflexivity;
      try lia;
    destruct (Pos.compare_spec mx my), (Pos.compare_spec my mz),
      (Pos.compare_spec mx mz); simpl; try discriminate; try reflexivity;
      lia.
Qed.

End FloatOrder.

Section FloatRounding.

Variables prec emax : Z.

Lemma shr_1_nonneg mrs : 0 <= shr_m mrs -> 0 <= shr_m (shr_1 mrs).
Proof.
  destruct mrs as [m r s]. simpl.
  destruct m as [|p|p]; [| destruct p | destruct p]; simpl; lia.
Qed.

Lemma iter_shr_1_nonneg p :
  forall mrs, 0 <= shr_m mrs -> 0 <= shr_m (SpecFloat.iter_pos shr_1 p mrs).
Proof.
  induction p as [p IH|p IH|]; intros mrs H; simpl.
  - apply IH, IH, shr_1_nonneg, H.
  - apply IH, IH, H.
  - apply shr_1_nonneg, H.
Qed.

Lemma shr_nonneg mrs e n : 0 <= shr_m mrs -> 0 <= shr_m (fst (shr mrs e n)).
Proof.
  intros H. unfold shr. destruct n; simpl; try exact H.
  apply iter_shr_1_nonneg, H.
Qed.

Lemma shr_record_of_loc_m m l : shr_m (shr_record_of_loc m l) = m.
Proof. destruct l as [|[]]; reflexivity. Qed.

Lemma round_nearest_even_nonneg m l : 0 <= m -> 0 <= round_nearest_even m l.
Proof.
  intros H. unfold round_nearest_even.
  destruct l as [|[]]; try lia. destruct (Z.even m); lia.
Qed.

(** Rounding a non-negative mantissa never produces NaN. *)
Lemma binary_round_aux_not_nan sx mx ex lx :
  0 <= mx -> F32.is_nan (binary_round_aux prec emax sx mx ex lx) = false.
Proof.
  intros H. unfold binary_round_aux, shr_fexp.
  destruct (shr (shr_record_of_loc mx lx) ex _) as [mrs' e'] eqn:E1.
  assert (H1 : 0 <= shr_m mrs').
  { change mrs' with (fst (mrs', e')). rewrite <- E1.
    apply shr_nonneg. rewrite shr_record_of_loc_m. exact H. }
  destruct (shr (shr_record_of_loc (round_nearest_even _ _) loc_Exact) e' _)
    as [mrs'' e''] eqn:E2.
  assert (H2 : 0 <= shr_m mrs'').
  { change mrs'' with (fst (mrs'', e'')). rewrite <- E2.
    apply shr_nonneg. rewrite shr_record_of_loc_m.
    apply round_nearest_even_nonneg, H1. }
  destruct (shr_m mrs'') as [|p|p]; [reflexivity | | lia].
  destruct (_ <=? _); reflexivity.
Qed.

Lemma binary_normalize_not_nan m e szero :
  F32.is_nan (binary_normalize prec emax m e szero) = false.
Proof.
  unfold binary_normalize, binary_round.
  destruct m as [|p|p]; [reflexivity | |];
    destruct (shl_align _ _ _) as [mz ez];
    apply binary_round_aux_not_nan; lia.
Qed.

End FloatRounding.

(** Adding a finite amount to a non-NaN counter never yields NaN. *)
Lemma add_finite_not_nan (x a : F32.float) :
  F32.is_nan x = false -> F32.is_finite a = true ->
  F32.is_nan (F32.add x a) = false.
Proof.
  unfold F32.add, SFadd.
  destruct x as [sx|sx| |sx mx ex], a as [sa|sa| |sa ma ea]; simpl;
    intros Hx Ha; try discriminate; try reflexivity.
  - destruct sx, sa; reflexivity.
  - apply binary_normalize_not_nan.
Qed.

(** A zero counter plus a positive amount is that amount. *)
Lemma add_zero_positive (x a : F32.float) :
  F32.is_zero x = true -> F32.gt a F32.zero = true -> F32.add x a = a.
Proof.
  destruct x as [sx|sx| |sx mx ex]; simpl; try discriminate. intros _.
  destruct a as [sa|sa| |sa ma ea]; simpl; try discriminate; reflexivity.
Qed.

Lemma positive_gt_zero (a l : F32.float) :
  F32.is_zero l = true -> F32.gt a F32.zero = true -> F32.gt a l = true.
Proof.
  destruct l as [sl|sl| |sl ml el]; simpl; try discriminate. intros _.
  destruct a as [sa|sa| |sa ma ea]; simpl; try discriminate; auto.
Qed.

(** A finite counter over a finite non-zero limit is a defined ratio. *)
Lemma div_finite_not_nan (x y : F32.float) :
  F32.is_finite x = true -> F32.is_finite y = true -> F32.is_zero y = false ->
  F32.is_nan (F32.div x y) = false.
Proof.
  unfold F32.div, SFdiv.
  destruct x as [sx|sx| |sx mx ex], y as [sy|sy| |sy my ey]; simpl;
    intros Hx Hy Hz; try discriminate; try reflexivity.
  unfold SFdiv_core_binary.
  set (m' := match _ with Z0 => Z.pos mx | Z.pos _ => _ | Z.neg _ => 0 end).
  assert (Hm : 0 <= m').
  { subst m'. destruct (_ - _ - _); try lia. apply Z.shiftl_nonneg. lia. }
  destruct (Z.div_eucl m' (Z.pos my)) as [q r] eqn:E.
  apply binary_round_aux_not_nan.
  replace q with (m' / Z.pos my) by (unfold Z.div; rewrite E; reflexivity).
  apply Z.div_pos; lia.
Qed.

(** ** The error ledger as a five-entry array *)

Section ErrorArray.

Import ErrorBudgetSystem.

Lemma eindex_lt type : (index type < ERROR_TYPE_COUNT)%nat.
Proof. destruct type; unfold ERROR_TYPE_COUNT; simpl; lia. Qed.

Lemma eindex_inj t1 t2 : index t1 = index t2 -> t1 = t2.
Proof. destruct t1, t2; simpl; intros H; congruence. Qed.

Lemma ebudgets_shape (l : list ErrorBudget) :
  length l = ERROR_TYPE_COUNT ->
  exists b0 b1 b2 b3 b4, l = [b0; b1; b2; b3; b4].
Proof.
  unfold ERROR_TYPE_COUNT. intros H.
  do 5 (destruct l as [|? l]; [discriminate H|]).
  destruct l; [|discriminate H].
  do 5 eexists. reflexivity.
Qed.

(** [Reset] overwrites every entry: its result does not depend on the
    previous contents of the array. *)
Lemma EReset_budgets s :
  wf s -> Budgets (Reset s) = map (mkBudget F32.zero) BaseLimits.
Proof.
  intros Hlen. destruct (ebudgets_shape _ Hlen) as (b0&b1&b2&b3&b4&E).
  unfold Reset. simpl. rewrite E. reflexivity.
Qed.

Lemma EReset_wf s : wf s -> wf (Reset s).
Proof. intros H. unfold wf. rewrite (EReset_budgets s H). reflexivity. Qed.

Lemma Adapt_wf p s : wf s -> wf (AdaptToPerception p s).
Proof.
  unfold wf, AdaptToPerception. simpl. intros H.
  rewrite !length_alter. exact H.
Qed.

Lemma ERequest_refused type amount s :
  fst (Request type amount s) = false -> snd (Request type amount s) = s.
Proof.
  unfold Request. destruct (F32.gt _ _); simpl; [reflexivity | discriminate].
Qed.

Lemma ERequest_accepted type amount s :
  fst (Request type amount s) = true ->
  snd (Request type amount s) =
    {| Budgets :=
         <[index type :=
             mkBudget (F32.add (Current (budget_of s type)) amount)
               (Limit (budget_of s type))]> (Budgets s) |}.
Proof.
  unfold Request. destruct (F32.gt _ _); simpl; [discriminate | reflexivity].
Qed.

Lemma ERequest_verdict type amount s :
  fst (Request type amount s) =
  negb (F32.gt (F32.add (Current (budget_of s type)) amount)
          (Limit (budget_of s type))).
Proof. unfold Request. destruct (F32.gt _ _); reflexivity. Qed.

Lemma ERequest_wf type amount s : wf s -> wf (snd (Request type amount s)).
Proof.
  intros H. destruct (fst (Request type amount s)) eqn:E.
  - rewrite (ERequest_accepted _ _ _ E). unfold wf. simpl.
    rewrite length_insert. exact H.
  - rewrite (ERequest_refused _ _ _ E). exact H.
Qed.

Lemma ebudget_of_insert_eq l type e :
  length l = ERROR_TYPE_COUNT ->
  budget_of (mkSystem (<[index type := e]> l)) type = e.
Proof.
  intros Hlen. unfold budget_of. simpl.
  apply list_lookup_total_insert_eq. rewrite Hlen. apply eindex_lt.
Qed.

Lemma ebudget_of_insert_ne l t1 t2 e :
  t2 <> t1 ->
  budget_of (mkSystem (<[index t1 := e]> l)) t2 = budget_of (mkSystem l) t2.
Proof.
  intros Hne. unfold budget_of. simpl.
  apply list_lookup_total_insert_ne. intros Heq. apply Hne.
  symmetry. apply eindex_inj. exact Heq.
Qed.

(** What [AdaptToPerception] leaves in each entry. *)
Lemma Adapt_budget_of p s type :
  wf s ->
  budget_of (AdaptToPerception p s) type =
    mkBudget (Current (budget_of s type))
      match type with
      | Temporal =>
          F32.mul (BaseLimits !!! index Temporal)
            (F32.add F32.one (CameraVelocity p))
      | Spatial =>
          F32.mul (BaseLimits !!! index Spatial)
            (F32.add F32.one (F32.mul (Luminance p) F32.half))
      | Reflection =>
          F32.mul (BaseLimits !!! index Reflection)
            (F32.add F32.one (FocusDepth p))
      | Shading | Volumetric => Limit (budget_of s type)
      end.
Proof.
  intros Hlen. destruct (ebudgets_shape _ Hlen) as (b0&b1&b2&b3&b4&E).
  unfold budget_of, AdaptToPerception. rewrite E.
  destruct type; simpl; try reflexivity.
  - destruct b2; reflexivity.
  - destruct b4; reflexivity.
Qed.

Lemma EReset_pinned s : wf s -> pinned (Reset s).
Proof.
  intros H. unfold pinned, budget_of. rewrite (EReset_budgets s H).
  split; reflexivity.
Qed.

Lemma ERequest_limit type amount s type' :
  wf s ->
  Limit (budget_of (snd (Request type amount s)) type') =
  Limit (budget_of s type').
Proof.
  intros Hlen. destruct (fst (Request type amount s)) eqn:E.
  - rewrite (ERequest_accepted _ _ _ E).
    destruct (decide (type' = type)) as [->|Hne].
    + rewrite ebudget_of_insert_eq by exact Hlen. reflexivity.
    + rewrite ebudget_of_insert_ne by exact Hne. destruct s; reflexivity.
  - rewrite (ERequest_refused _ _ _ E). reflexivity.
Qed.

Lemma ereachable_wf_pinned s : reachable s -> wf s /\ pinned s.
Proof.
  induction 1 as [u Hu | s Hs [IHw IHp] | p s Hs [IHw IHp]
                 | type amount s Hs [IHw IHp]].
  - split; [apply EReset_wf | apply EReset_pinned]; exact Hu.
  - split; [apply EReset_wf | apply EReset_pinned]; exact IHw.
  - split; [apply Adapt_wf; exact IHw|].
    unfold pinned. rewrite !Adapt_budget_of by exact IHw. exact IHp.
  - split; [apply ERequest_wf; exact IHw|].
    unfold pinned. rewrite !ERequest_limit by exact IHw. exact IHp.
Qed.

(** [Saturation] unrolled over the five entries. *)
Lemma Saturation_unfold s :
  Saturation s =
  fold_left (fun m type => F32.max m (GetUsage type s)) types F32.zero.
Proof. reflexivity. Qed.

(** With finite counters and finite non-zero limits no usage ratio is NaN. *)
Lemma GetUsage_not_nan s type :
  F32.is_finite (Current (budget_of s type)) = true ->
  F32.is_finite (Limit (budget_of s type)) = true ->
  F32.is_zero (Limit (budget_of s type)) = false ->
  F32.is_nan (GetUsage type s) = false.
Proof. apply div_finite_not_nan. Qed.

End ErrorArray.

Lemma le_not_gt (x y : F32.float) : F32.le x y = true -> F32.gt x y = false.
Proof.
  unfold F32.gt, F32.le, SFltb, SFleb. rewrite (compare_antisym x y).
  destruct (SFcompare x y) as [[]|]; simpl; congruence.
Qed.

(** Concrete ledgers are checked by evaluation. *)
Ltac concrete_range := cbv -[Z.le Z.lt]; lia.

Ltac concrete_mem_wf :=
  split; [reflexivity | split; [simpl; repeat constructor; concrete_range
                               | concrete_range]].

(** ** Admission *)

(** C1 (as stated, refuted).  In the memory ledger a request whose exact sum
    passes 2^64 is admitted although [consumed + amount > limit], and the
    counter does not grow by the amount; in the error ledger a NaN amount is
    admitted although [consumed + amount <= limit] is false, and a small
    positive amount is admitted while the counter keeps its value. *)
Lemma C1_admission_counterexample :
  (let s := snd (Mem.Request Mem.Geometry 2
                   (Mem.Initialize 100 fresh_memory)) in
   let bytes := 2 ^ 64 - 1 in
   let r := Mem.Request Mem.Geometry bytes s in
   Mem.wf s /\ U64.in_range bytes /\
   fst r = true /\
   ~ Mem.UsedBytes (Mem.budget_of s Mem.Geometry) + bytes
       <= Mem.MaxBytes (Mem.budget_of s Mem.Geometry) /\
   Mem.UsedBytes (Mem.budget_of (snd r) Mem.Geometry)
     <> Mem.UsedBytes (Mem.budget_of s Mem.Geometry) + bytes) /\
  (let s := fresh_error in
   let r := Err.Request Err.Spatial F32.nan s in
   fst r = true /\
   F32.le (F32.add (Err.Current (Err.budget_of s Err.Spatial)) F32.nan)
     (Err.Limit (Err.budget_of s Err.Spatial)) = false) /\
  (let s := snd (Err.Request Err.Spatial F32.half fresh_error) in
   let tiny := S754_finite false 8388608 (-53) in
   let r := Err.Request Err.Spatial tiny s in
   F32.valid tiny = true /\
   tiny = F32.div F32.one (F32.of_Z (2 ^ 30)) /\
   F32.gt tiny F32.zero = true /\
   fst r = true /\
   Err.Current (Err.budget_of (snd r) Err.Spatial)
     = Err.Current (Err.budget_of s Err.Spatial)).
Proof.
  split; [|split].
  - cbv zeta. split; [concrete_mem_wf|]. split; [concrete_range|].
    vm_compute. repeat split; congruence.
  - vm_compute. split; reflexivity.
  - vm_compute. repeat split; reflexivity.
Qed.

(** C1 (amended).  Memory ledger: when [consumed + amount] stays below 2^64,
    [Request] returns [true] exactly when [consumed + amount <= limit]; an
    admitted request adds exactly [amount] to the domain's counter and changes
    nothing else; a refused one changes nothing.  Error ledger: [Request]
    returns [false] exactly when the binary32 sum [consumed + amount] compares
    greater than the limit, which, when neither is NaN, is the negation of
    [consumed + amount <= limit]; an admitted request stores that rounded sum
    and changes nothing else; a refused one changes nothing. *)
Theorem C1_admission
    (ms : Mem.t) (domain : Mem.FrameMemoryDomain) (bytes : Z)
    (es : Err.t) (type : Err.ErrorType) (amount : F32.float) :
  Mem.wf ms ->
  U64.in_range bytes ->
  Mem.UsedBytes (Mem.budget_of ms domain) + bytes < U64.modulus ->
  Err.wf es ->
  (let r := Mem.Request domain bytes ms in
   let b := Mem.budget_of ms domain in
   (fst r = true <-> Mem.UsedBytes b + bytes <= Mem.MaxBytes b) /\
   (fst r = true ->
      Mem.budget_of (snd r) domain
        = Mem.mkBudget (Mem.MaxBytes b) (Mem.UsedBytes b + bytes) /\
      (forall d, d <> domain -> Mem.budget_of (snd r) d = Mem.budget_of ms d) /\
      Mem.TotalBudget (snd r) = Mem.TotalBudget ms) /\
   (fst r = false -> snd r = ms))
  /\
  (let r := Err.Request type amount es in
   let B := Err.budget_of es type in
   let sum := F32.add (Err.Current B) amount in
   (fst r = false <-> F32.gt sum (Err.Limit B) = true) /\
   (F32.is_nan sum = false -> F32.is_nan (Err.Limit B) = false ->
      (fst r = true <-> F32.le sum (Err.Limit B) = true)) /\
   (fst r = true ->
      Err.budget_of (snd r) type = Err.mkBudget sum (Err.Limit B) /\
      (forall t', t' <> type -> Err.budget_of (snd r) t' = Err.budget_of es t')) /\
   (fst r = false -> snd r = es)).
Proof.
  intros Hwf Hbytes Hsum Hewf. split.
  - cbv zeta.
    pose proof (budget_of_ok ms domain Hwf) as [_ Hused].
    assert (Hadd : U64.add (Mem.UsedBytes (Mem.budget_of ms domain)) bytes
                   = Mem.UsedBytes (Mem.budget_of ms domain) + bytes).
    { apply wrap_small. unfold U64.in_range in *. lia. }
    split; [|split].
    + rewrite Request_true, Hadd. reflexivity.
    + intros E. rewrite (Request_accepted _ _ _ E), Hadd.
      destruct Hwf as (Hlen & _). split; [|split].
      * apply budget_of_insert_eq, Hlen.
      * intros d Hne. rewrite budget_of_insert_ne by exact Hne.
        destruct ms; reflexivity.
      * reflexivity.
    + apply Request_refused.
  - cbv zeta. rewrite ERequest_verdict.
    split; [|split; [|split]].
    + destruct (F32.gt _ _); simpl; split; congruence.
    + intros Hn1 Hn2. split.
      * intros E. apply not_gt_le; try assumption.
        destruct (F32.gt _ _); simpl in E; congruence.
      * intros E. rewrite (le_not_gt _ _ E). reflexivity.
    + intros E. rewrite <- ERequest_verdict in E.
      rewrite (ERequest_accepted _ _ _ E). split.
      * apply ebudget_of_insert_eq, Hewf.
      * intros t' Hne. rewrite ebudget_of_insert_ne by exact Hne.
        destruct es; reflexivity.
    + intros E. rewrite <- ERequest_verdict in E.
      apply ERequest_refused, E.
Qed.

Lemma C1_admission_witness :
  let ms := Mem.Initialize 100 fresh_memory in
  let es := fresh_error in
  fst (Mem.Request Mem.Geometry 20 ms) = true /\
  Mem.budget_of (snd (Mem.Request Mem.Geometry 20 ms)) Mem.Geometry
    = Mem.mkBudget 30 20 /\
  fst (Mem.Request Mem.Geometry 31 ms) = false /\
  fst (Err.Request Err.Temporal F32.one es) = false /\
  fst (Err.Request Err.Temporal F32.half es) = true.
Proof.
  cbv zeta.
  destruct (C1_admission
              (Mem.Initialize 100 fresh_memory)
              Mem.Geometry 20 fresh_error
              Err.Temporal F32.one)
    as [(Hm1 & Hm2 & _) (He1 & _)];
    [concrete_mem_wf | concrete_range | concrete_range | reflexivity |].
  split; [apply Hm1; concrete_range|].
  split; [apply Hm2, Hm1; concrete_range|].
  split; [reflexivity|].
  split; [apply He1; reflexivity | reflexivity].
Defined.

(** ** Conservation *)

Lemma ERequest_conserved type amount s :
  Err.wf s -> Err.conserved s -> F32.is_finite amount = true ->
  Err.conserved (snd (Err.Request type amount s)).
Proof.
  intros Hwf Hc Hfin. destruct (fst (Err.Request type amount s)) eqn:E.
  - pose proof E as Hv. rewrite ERequest_verdict in Hv.
    apply negb_true_iff in Hv.
    rewrite (ERequest_accepted _ _ _ E).
    intros t'. destruct (decide (t' = type)) as [->|Hne].
    + rewrite ebudget_of_insert_eq by exact Hwf. simpl.
      destruct (le_not_nan _ _ (Hc type)) as [Hcur Hlim].
      apply not_gt_le; [apply add_finite_not_nan| |]; assumption.
    + rewrite ebudget_of_insert_ne by exact Hne. destruct s; apply Hc.
  - rewrite (ERequest_refused _ _ _ E). exact Hc.
Qed.

Lemma mem_trace_conserved calls :
  forall s, Mem.wf s -> Mem.conserved s ->
  Forall Mem.conserved (Mem.request_trace calls s).
Proof.
  induction calls as [|[d bytes] rest IH]; intros s Hwf Hc; simpl.
  - constructor.
  - constructor.
    + apply Request_conserved; assumption.
    + apply IH; [apply Request_wf | apply Request_conserved]; assumption.
Qed.

Lemma err_trace_conserved calls :
  forall s, Err.wf s -> Err.conserved s ->
  Forall (fun c => F32.is_finite (snd c) = true) calls ->
  Forall Err.conserved (Err.request_trace calls s).
Proof.
  induction calls as [|[ty a] rest IH]; intros s Hwf Hc Hfin; simpl.
  - constructor.
  - inversion Hfin as [|? ? Ha Hrest]; subst. simpl in Ha.
    constructor.
    + apply ERequest_conserved; assumption.
    + apply IH; [apply ERequest_wf | apply ERequest_conserved |]; assumption.
Qed.

(** C2 (as stated, refuted).  A freshly constructed error ledger satisfies
    [consumed <= limit] everywhere; after the single call
    [Request(Spatial, NaN)], which is admitted, it no longer does. *)
Lemma C2_conservation_counterexample :
  let s := fresh_error in
  Err.wf s /\ Err.conserved s /\
  fst (Err.Request Err.Spatial F32.nan s) = true /\
  ~ Forall Err.conserved (Err.request_trace [(Err.Spatial, F32.nan)] s).
Proof.
  cbv zeta. split; [reflexivity|]. split; [intros []; reflexivity|].
  split; [reflexivity|].
  intros H. inversion H as [|? ? Hc _]; subst.
  specialize (Hc Err.Spatial). vm_compute in Hc. discriminate Hc.
Qed.

(** C2 (amended).  Starting from a ledger with [consumed <= limit] in every
    category, the invariant holds after every call of any sequence of
    requests: in the memory ledger for all amounts, in the error ledger for
    all sequences whose amounts are finite (neither NaN nor an infinity). *)
Theorem C2_conservation
    (ms : Mem.t) (mcalls : list (Mem.FrameMemoryDomain * Z))
    (es : Err.t) (ecalls : list (Err.ErrorType * F32.float)) :
  Mem.wf ms -> Mem.conserved ms ->
  Err.wf es -> Err.conserved es ->
  Forall (fun c => F32.is_finite (snd c) = true) ecalls ->
  Forall Mem.conserved (Mem.request_trace mcalls ms) /\
  Forall Err.conserved (Err.request_trace ecalls es).
Proof.
  intros Hmw Hmc Hew Hec Hfin. split.
  - apply mem_trace_conserved; assumption.
  - apply err_trace_conserved; assumption.
Qed.

Lemma C2_conservation_witness :
  let ms := Mem.Initialize 100 fresh_memory in
  let es := fresh_error in
  Forall Mem.conserved
    (Mem.request_trace
       [(Mem.Geometry, 20); (Mem.Geometry, 2 ^ 64 - 1); (Mem.UI, 7)] ms) /\
  Forall Err.conserved
    (Err.request_trace
       [(Err.Temporal, F32.half); (Err.Temporal, F32.half);
        (Err.Shading, F32.one)] es).
Proof.
  cbv zeta. apply C2_conservation.
  - concrete_mem_wf.
  - intros []; cbv -[Z.le]; lia.
  - reflexivity.
  - intros []; reflexivity.
  - repeat constructor.
Defined.

(** ** Proportional partition *)

(** C3 (as stated, refuted).  For [totalBytes = 2^63] the product
    [totalBytes * 30] wraps to zero in 64 bits: the Geometry limit is 0, not
    [totalBytes * 30 / 100], and the limits sum to far less than
    [totalBytes - 7]. *)
Lemma C3_partition_counterexample :
  let total := 2 ^ 63 in
  let s := Mem.Initialize total fresh_memory in
  U64.in_range total /\
  Mem.MaxBytes (Mem.budget_of s Mem.Geometry) = 0 /\
  Mem.MaxBytes (Mem.budget_of s Mem.Geometry) <> total * 30 / 100 /\
  ~ total - 7 <= Mem.sum_limits s.
Proof.
  cbv zeta. split; [concrete_range|].
  vm_compute. repeat split; congruence.
Qed.

(** C3 (amended).  For every [totalBytes] with [totalBytes * 30 < 2^64],
    [Initialize] sets each domain's limit to [totalBytes * p / 100] with the
    fixed percentages (which sum to 100), sets every counter to zero and
    records [totalBytes]; the eight limits sum to at most [totalBytes] and
    to at least [totalBytes - 7]. *)
Theorem C3_partition (total : Z) (s : Mem.t) :
  Mem.wf s ->
  0 <= total ->
  total * 30 < U64.modulus ->
  (forall d,
     Mem.budget_of (Mem.Initialize total s) d
       = Mem.mkBudget (total * Mem.fixedPercentage d / 100) 0) /\
  foldr (fun d acc => Mem.fixedPercentage d + acc) 0 Mem.domains = 100 /\
  Mem.TotalBudget (Mem.Initialize total s) = total /\
  total - 7 <= Mem.sum_limits (Mem.Initialize total s) <= total.
Proof.
  intros (Hlen & _ & _) Hpos Hsmall.
  assert (Hshare : forall p, 0 <= p <= 30 ->
            U64.div (U64.mul total p) 100 = total * p / 100).
  { intros p Hp. unfold U64.div, U64.mul. rewrite wrap_small; [reflexivity|].
    unfold U64.in_range. nia. }
  split; [|split; [|split]].
  - intros d. unfold Mem.budget_of.
    rewrite (Initialize_budgets _ _ Hlen).
    destruct d; simpl; rewrite Hshare by lia; reflexivity.
  - reflexivity.
  - reflexivity.
  - unfold Mem.sum_limits. rewrite (Initialize_budgets _ _ Hlen). simpl.
    rewrite !Hshare by lia.
    clear Hshare Hlen Hsmall. Z.div_mod_to_equations. lia.
Qed.

Lemma C3_partition_witness :
  let s := Mem.Initialize 99 fresh_memory in
  Mem.budget_of s Mem.Textures = Mem.mkBudget 24 0 /\
  Mem.sum_limits s = 92.
Proof.
  cbv zeta.
  destruct (C3_partition 99 fresh_memory)
    as (Hlim & _ & _ & _); [concrete_mem_wf | lia | concrete_range |].
  split; [apply Hlim | reflexivity].
Defined.

(** The bound of seven bytes is reached. *)
Example partition_loss_of_seven :
  Mem.sum_limits (Mem.Initialize 99 fresh_memory) = 99 - 7.
Proof. reflexivity. Qed.

(** ** Perceptual adaptation *)

(** C4.  On every ledger built through the public interface,
    [AdaptToPerception] sets the Temporal, Spatial and Reflection limits to
    the base constant times [1 + CameraVelocity], [1 + Luminance * 0.5] and
    [1 + FocusDepth] (binary32 arithmetic), leaves the Shading and Volumetric
    limits at their base constants, and keeps every counter. *)
Theorem C4_adapt (p : Err.PerceptualState) (s : Err.t) :
  Err.reachable s ->
  let s' := Err.AdaptToPerception p s in
  let base type := Err.BaseLimits !!! Err.index type in
  Err.Limit (Err.budget_of s' Err.Temporal)
    = F32.mul (base Err.Temporal) (F32.add F32.one (Err.CameraVelocity p)) /\
  Err.Limit (Err.budget_of s' Err.Spatial)
    = F32.mul (base Err.Spatial)
        (F32.add F32.one (F32.mul (Err.Luminance p) F32.half)) /\
  Err.Limit (Err.budget_of s' Err.Reflection)
    = F32.mul (base Err.Reflection) (F32.add F32.one (Err.FocusDepth p)) /\
  Err.Limit (Err.budget_of s' Err.Shading) = base Err.Shading /\
  Err.Limit (Err.budget_of s' Err.Volumetric) = base Err.Volumetric /\
  forall type,
    Err.Current (Err.budget_of s' type) = Err.Current (Err.budget_of s type).
Proof.
  intros Hr. destruct (ereachable_wf_pinned s Hr) as [Hwf [Hsh Hvo]].
  cbv zeta. rewrite !Adapt_budget_of by exact Hwf. simpl Err.Limit.
  repeat split; try assumption.
  intros type. rewrite Adapt_budget_of by exact Hwf. reflexivity.
Qed.

Lemma C4_adapt_witness :
  let s := snd (Err.Request Err.Shading F32.half fresh_error) in
  let s' := Err.AdaptToPerception (Err.mkPerceptual F32.half F32.zero F32.zero) s in
  Err.Limit (Err.budget_of s' Err.Temporal) = F32.div (F32.of_Z 12) (F32.of_Z 10) /\
  Err.Limit (Err.budget_of s' Err.Shading) = F32.c0_6 /\
  Err.Current (Err.budget_of s' Err.Shading) = F32.half.
Proof.
  cbv zeta.
  destruct (C4_adapt (Err.mkPerceptual F32.half F32.zero F32.zero)
              (snd (Err.Request Err.Shading F32.half fresh_error)))
    as (Ht & _ & _ & Hs & _ & Hc).
  { apply Err.reach_Request, Err.reach_create. reflexivity. }
  split; [rewrite Ht; reflexivity|].
  split; [rewrite Hs; reflexivity | rewrite Hc; reflexivity].
Defined.

(** ** Remaining budget *)

(** C5.  In every well-formed memory ledger [GetRemaining] is
    [max(0, limit - consumed)]: it is never negative, and it is zero, not a
    wrapped difference, when the counter exceeds the limit. *)
Theorem C5_remaining (domain : Mem.FrameMemoryDomain) (s : Mem.t) :
  Mem.wf s ->
  let b := Mem.budget_of s domain in
  Mem.GetRemaining domain s = Z.max 0 (Mem.MaxBytes b - Mem.UsedBytes b) /\
  0 <= Mem.GetRemaining domain s /\
  (Mem.MaxBytes b <= Mem.UsedBytes b -> Mem.GetRemaining domain s = 0).
Proof.
  intros Hwf. cbv zeta.
  pose proof (budget_of_ok s domain Hwf) as [Hmax Hused].
  unfold Mem.GetRemaining.
  destruct (Z.gtb_spec (Mem.MaxBytes (Mem.budget_of s domain))
              (Mem.UsedBytes (Mem.budget_of s domain))) as [Hgt|Hle].
  - unfold U64.sub. rewrite wrap_small by (unfold U64.in_range in *; lia).
    lia.
  - lia.
Qed.

Lemma C5_remaining_witness :
  Mem.GetRemaining Mem.Audio (Mem.mkSystem (replicate 8 (Mem.mkBudget 5 9)) 0) = 0 /\
  Mem.GetRemaining Mem.Audio (Mem.mkSystem (replicate 8 (Mem.mkBudget 9 5)) 0) = 4.
Proof.
  split.
  - apply (C5_remaining Mem.Audio (Mem.mkSystem (replicate 8 (Mem.mkBudget 5 9)) 0)).
    + concrete_mem_wf.
    + simpl. lia.
  - destruct (C5_remaining Mem.Audio
                (Mem.mkSystem (replicate 8 (Mem.mkBudget 9 5)) 0)) as [H _].
    + concrete_mem_wf.
    + rewrite H. reflexivity.
Defined.

(** ** Per-frame reset *)

(** C6 (as stated, refuted).  After [AdaptToPerception] on a fresh error
    ledger every counter is zero, yet [Reset] changes the ledger: it puts the
    Temporal limit back to its base constant. *)
Lemma C6_reset_counterexample :
  let s := Err.AdaptToPerception (Err.mkPerceptual F32.half F32.zero F32.zero)
             fresh_error in
  Err.reachable s /\
  (forall type, Err.Current (Err.budget_of s type) = F32.zero) /\
  Err.Reset s <> s.
Proof.
  cbv zeta. split; [|split].
  - apply Err.reach_AdaptToPerception, Err.reach_create. reflexivity.
  - intros []; reflexivity.
  - vm_compute. congruence.
Qed.

(** C6 (amended).  [BeginFrame] changes nothing in a memory ledger whose
    counters are all zero, and [Reset] changes nothing in an error ledger
    whose counters are all zero and whose limits are all at their base
    constants; for both, calling the operation twice in a row leaves the
    ledger as calling it once does. *)
Theorem C6_reset (ms : Mem.t) (es : Err.t) :
  Mem.wf ms ->
  Err.wf es ->
  ((forall domain, Mem.UsedBytes (Mem.budget_of ms domain) = 0) ->
   Mem.BeginFrame ms = ms) /\
  Mem.BeginFrame (Mem.BeginFrame ms) = Mem.BeginFrame ms /\
  ((forall type,
      Err.budget_of es type
        = Err.mkBudget F32.zero (Err.BaseLimits !!! Err.index type)) ->
   Err.Reset es = es) /\
  Err.Reset (Err.Reset es) = Err.Reset es.
Proof.
  intros (Hlen & _ & _) Hewf.
  destruct ms as [ml mt], es as [el]. simpl in Hlen. unfold Err.wf in Hewf.
  simpl in Hewf.
  destruct (budgets_shape _ Hlen) as (b0&b1&b2&b3&b4&b5&b6&b7&->).
  destruct (ebudgets_shape _ Hewf) as (e0&e1&e2&e3&e4&->).
  split; [|split; [|split]].
  - intros H.
    pose proof (H Mem.Geometry) as H0. pose proof (H Mem.Animation) as H1.
    pose proof (H Mem.Textures) as H2. pose proof (H Mem.Particles) as H3.
    pose proof (H Mem.AI) as H4. pose proof (H Mem.Audio) as H5.
    pose proof (H Mem.Physics) as H6. pose proof (H Mem.UI) as H7.
    clear H. destruct b0, b1, b2, b3, b4, b5, b6, b7.
    unfold Mem.budget_of in *. simpl in *. subst. reflexivity.
  - reflexivity.
  - intros H.
    pose proof (H Err.Spatial) as H0. pose proof (H Err.Temporal) as H1.
    pose proof (H Err.Shading) as H2. pose proof (H Err.Reflection) as H3.
    pose proof (H Err.Volumetric) as H4. clear H.
    unfold Err.budget_of in *. simpl in *. subst. reflexivity.
  - reflexivity.
Qed.

Lemma C6_reset_witness :
  let ms := Mem.Initialize 100 fresh_memory in
  let es := fresh_error in
  Mem.BeginFrame ms = ms /\ Err.Reset es = es.
Proof.
  cbv zeta.
  destruct (C6_reset
              (Mem.Initialize 100 fresh_memory) fresh_error)
    as (Hm & _ & He & _); [concrete_mem_wf | reflexivity |].
  split.
  - apply Hm. intros []; reflexivity.
  - apply He. intros []; reflexivity.
Defined.

(** ** Sums that do not underflow *)

Section FloatPositive.

Variables prec emax : Z.
Hypothesis prec_pos : 0 < prec.

Lemma digits_shr_1 mrs :
  Zdigits2 (shr_m (shr_1 mrs)) = Z.max 0 (Zdigits2 (shr_m mrs) - 1).
Proof.
  destruct mrs as [m r s]. simpl.
  destruct m as [|p|p]; [| destruct p | destruct p]; simpl; lia.
Qed.

Lemma digits_iter_shr_1 p :
  forall mrs,
    Zdigits2 (shr_m (SpecFloat.iter_pos shr_1 p mrs))
    = Z.max 0 (Zdigits2 (shr_m mrs) - Z.pos p).
Proof.
  induction p as [p IH|p IH|]; intros mrs; simpl.
  - rewrite !IH, digits_shr_1. lia.
  - rewrite !IH. lia.
  - apply digits_shr_1.
Qed.

Lemma digits_positive m : 0 <= m -> 0 < Zdigits2 m -> 0 < m.
Proof. destruct m; simpl; lia. Qed.

(** Shifting a positive mantissa down to its canonical exponent keeps it
    positive when the exponent is not below [emin]. *)
Lemma shr_fexp_positive mp e l :
  SpecFloat.emin prec emax <= e ->
  0 < shr_m (fst (shr_fexp prec emax (Z.pos mp) e l)) /\
  SpecFloat.emin prec emax <= snd (shr_fexp prec emax (Z.pos mp) e l).
Proof.
  intros He. unfold shr_fexp, shr.
  set (n := fexp prec emax (Zdigits2 (Z.pos mp) + e) - e).
  assert (Hn : n <= Z.max (Zdigits2 (Z.pos mp) - prec) 0).
  { subst n. unfold fexp. lia. }
  destruct n as [|p|p] eqn:En; simpl fst; simpl snd;
    rewrite ?shr_record_of_loc_m; try (split; lia).
  split; [|lia].
  apply digits_positive.
  - apply iter_shr_1_nonneg. rewrite shr_record_of_loc_m. lia.
  - rewrite digits_iter_shr_1, shr_record_of_loc_m. lia.
Qed.

Lemma round_nearest_even_ge m l : m <= round_nearest_even m l.
Proof.
  unfold round_nearest_even. destruct l as [|[]]; try lia.
  destruct (Z.even m); lia.
Qed.

(** Rounding a positive mantissa at an exponent of at least [emin] never
    underflows to zero. *)
Lemma binary_round_aux_positive sx mx ex lx :
  SpecFloat.emin prec emax <= ex ->
  F32.nonzero_with_sign sx (binary_round_aux prec emax sx (Z.pos mx) ex lx).
Proof.
  intros He. unfold binary_round_aux.
  destruct (shr_fexp_positive mx ex lx He) as [H1 H1e].
  destruct (shr_fexp prec emax (Z.pos mx) ex lx) as [mrs' e'].
  simpl in H1, H1e.
  pose proof (round_nearest_even_ge (shr_m mrs') (loc_of_shr_record mrs')) as Hr.
  destruct (round_nearest_even (shr_m mrs') (loc_of_shr_record mrs'))
    as [|q|q]; try lia.
  destruct (shr_fexp_positive q e' loc_Exact H1e) as [H2 _].
  destruct (shr_fexp prec emax (Z.pos q) e' loc_Exact) as [mrs'' e''].
  simpl in H2.
  destruct (shr_m mrs'') as [|m|m]; try lia.
  destruct (_ <=? _); reflexivity.
Qed.

Lemma binary_round_positive sx mx ex :
  SpecFloat.emin prec emax <= ex -> F32.nonzero_with_sign sx (binary_round prec emax sx mx ex).
Proof.
  intros He. unfold binary_round.
  destruct (shl_align mx ex _) as [mz ez] eqn:E.
  apply binary_round_aux_positive.
  unfold shl_align in E.
  destruct (_ - ex) eqn:Ed; inversion E; subst; try lia.
  unfold fexp. lia.
Qed.

Lemma valid_exponent s m e :
  valid_binary prec emax (S754_finite s m e) = true -> SpecFloat.emin prec emax <= e.
Proof.
  simpl. unfold bounded, canonical_mantissa, fexp.
  intros H. apply andb_true_iff in H. destruct H as [H _].
  apply Z.eqb_eq in H. lia.
Qed.

End FloatPositive.

(** A non-negative counter plus a positive amount is positive: the binary32
    sum of two numbers of the format never underflows to zero. *)
Lemma add_nonneg_positive (x a : F32.float) :
  F32.valid x = true -> F32.valid a = true ->
  F32.le F32.zero x = true -> F32.gt a F32.zero = true ->
  F32.gt (F32.add x a) F32.zero = true.
Proof.
  intros Vx Va Hx Ha.
  destruct x as [sx|sx| |sx mx ex]; try discriminate;
    destruct a as [sa|sa| |sa ma ea]; try discriminate;
    try (destruct sx; try discriminate); try (destruct sa; try discriminate);
    try reflexivity.
  pose proof (valid_exponent F32.prec F32.emax false mx ex Vx) as Hex.
  pose proof (valid_exponent F32.prec F32.emax false ma ea Va) as Hea.
  unfold F32.add, SFadd. cbv zeta.
  set (ez := Z.min ex ea).
  set (m1 := fst (shl_align mx ex ez)). set (m2 := fst (shl_align ma ea ez)).
  change (binary_normalize F32.prec F32.emax
            (cond_Zopp false (Z.pos m1) + cond_Zopp false (Z.pos m2)) ez false)
    with (binary_round F32.prec F32.emax false (m1 + m2)%positive ez).
  pose proof (binary_round_positive F32.prec F32.emax eq_refl false
                (m1 + m2)%positive ez) as Hp.
  destruct (binary_round F32.prec F32.emax false (m1 + m2) ez) as [s|s| |s m e];
    simpl in Hp; try (exfalso; apply Hp; subst ez; lia);
    rewrite Hp by (subst ez; lia); reflexivity.
Qed.

(** ** Zero limits *)

(** C7 (as stated, refuted).  An error ledger built through the public
    interface whose Temporal limit is zero admits a request of 1.0: the
    counter had gone negative through an admitted negative amount. *)
Lemma C7_zero_limit_counterexample :
  let p := Err.mkPerceptual (F32.of_Z (-1)) F32.zero F32.zero in
  let s := snd (Err.Request Err.Temporal (F32.of_Z (-5))
                  (Err.AdaptToPerception p fresh_error)) in
  F32.valid (F32.of_Z (-1)) = true /\
  F32.valid (F32.of_Z (-5)) = true /\
  Err.reachable s /\
  F32.is_zero (Err.Limit (Err.budget_of s Err.Temporal)) = true /\
  F32.gt F32.one F32.zero = true /\
  fst (Err.Request Err.Temporal F32.one s) = true /\
  snd (Err.Request Err.Temporal F32.one s) <> s.
Proof.
  cbv zeta. split; [reflexivity|]. split; [reflexivity|]. split.
  { apply Err.reach_Request, Err.reach_AdaptToPerception, Err.reach_create.
    reflexivity. }
  vm_compute. repeat split; congruence.
Qed.

(** C7 (amended).  A request for a strictly positive amount is refused and
    changes nothing when the category's limit is zero and its counter is
    neither negative nor NaN: in the memory ledger, whose counters are
    unsigned, that is every zero-limit domain of a ledger built through the
    public interface; in the error ledger every category whose limit is zero
    and whose counter compares [>= 0] (counter and amount being binary32
    numbers). *)
Theorem C7_zero_limit
    (ms : Mem.t) (domain : Mem.FrameMemoryDomain) (bytes : Z)
    (es : Err.t) (type : Err.ErrorType) (amount : F32.float) :
  Mem.reachable ms ->
  Mem.MaxBytes (Mem.budget_of ms domain) = 0 ->
  0 < bytes < U64.modulus ->
  F32.is_zero (Err.Limit (Err.budget_of es type)) = true ->
  F32.valid (Err.Current (Err.budget_of es type)) = true ->
  F32.valid amount = true ->
  F32.le F32.zero (Err.Current (Err.budget_of es type)) = true ->
  F32.gt amount F32.zero = true ->
  Mem.Request domain bytes ms = (false, ms) /\
  Err.Request type amount es = (false, es).
Proof.
  intros Hr Hmax Hbytes Hlim Vcur Vam Hcur Hpos. split.
  - destruct (reachable_wf_conserved ms Hr) as [Hwf Hc].
    pose proof (budget_of_ok ms domain Hwf) as [_ Hused].
    specialize (Hc domain). unfold Mem.Request.
    assert (Hzero : Mem.UsedBytes (Mem.budget_of ms domain) = 0)
      by (unfold U64.in_range in Hused; lia).
    rewrite Hzero, Hmax. unfold U64.add.
    rewrite wrap_small by (unfold U64.in_range; lia).
    destruct (Z.gtb_spec (0 + bytes) 0); [reflexivity | lia].
  - unfold Err.Request.
    rewrite (positive_gt_zero _ _ Hlim
               (add_nonneg_positive _ _ Vcur Vam Hcur Hpos)).
    reflexivity.
Qed.

Lemma C7_zero_limit_witness :
  let ms := fresh_memory in
  let es := Err.AdaptToPerception
              (Err.mkPerceptual (F32.of_Z (-1)) F32.zero F32.zero)
              (snd (Err.Request Err.Temporal F32.half fresh_error)) in
  Err.budget_of es Err.Temporal = Err.mkBudget F32.half F32.zero /\
  Mem.Request Mem.Physics 1 ms = (false, ms) /\
  Err.Request Err.Temporal F32.half es = (false, es).
Proof.
  cbv zeta. split; [reflexivity|]. apply C7_zero_limit.
  - apply Mem.reach_create. concrete_mem_wf.
  - reflexivity.
  - concrete_range.
  - reflexivity.
  - reflexivity.
  - reflexivity.
  - reflexivity.
  - reflexivity.
Defined.

(** ** Saturation *)

Lemma le_antisym_eq (x y : F32.float) :
  F32.le x y = true -> F32.le y x = true -> F32.eq x y = true.
Proof.
  unfold F32.le, F32.eq, SFleb, SFeqb. rewrite (compare_antisym x y).
  destruct (SFcompare x y) as [[]|]; simpl; congruence.
Qed.

Lemma max_not_nan (m x : F32.float) :
  F32.is_nan m = false -> F32.is_nan x = false -> F32.is_nan (F32.max m x) = false.
Proof. intros Hm Hx. unfold F32.max. destruct (F32.lt m x); assumption. Qed.

Lemma max_upper (m x : F32.float) :
  F32.is_nan m = false -> F32.is_nan x = false ->
  F32.le m (F32.max m x) = true /\ F32.le x (F32.max m x) = true.
Proof.
  intros Hm Hx. unfold F32.max. destruct (F32.lt m x) eqn:E.
  - split; [apply lt_le, E | apply le_refl, Hx].
  - split; [apply le_refl, Hm | apply not_lt_le; assumption].
Qed.

Lemma max_choice (m x : F32.float) : F32.max m x = m \/ F32.max m x = x.
Proof. unfold F32.max. destruct (F32.lt m x); auto. Qed.

(** The running maximum of [Saturation]'s loop over a list of ratios. *)
Lemma fold_max_spec (l : list F32.float) :
  forall m0,
    F32.is_nan m0 = false ->
    Forall (fun x => F32.is_nan x = false) l ->
    F32.is_nan (fold_left F32.max l m0) = false /\
    F32.le m0 (fold_left F32.max l m0) = true /\
    Forall (fun x => F32.le x (fold_left F32.max l m0) = true) l /\
    (fold_left F32.max l m0 = m0 \/ In (fold_left F32.max l m0) l).
Proof.
  induction l as [|x l IH]; intros m0 Hm0 Hl; simpl.
  - repeat split; [exact Hm0 | apply le_refl, Hm0 | constructor | auto].
  - inversion Hl as [|? ? Hx Hl']; subst.
    destruct (max_upper m0 x Hm0 Hx) as [Hm Hxm].
    destruct (IH (F32.max m0 x) (max_not_nan _ _ Hm0 Hx) Hl')
      as (Hn & Hle & Hall & Hch).
    split; [exact Hn|]. split; [eapply le_trans; eassumption|].
    split.
    + constructor; [eapply le_trans; eassumption | exact Hall].
    + destruct Hch as [Hch|Hch]; [|auto].
      rewrite Hch. destruct (max_choice m0 x) as [->| ->]; auto.
Qed.

(** C8 (as stated, refuted).  After a request of -0.5 has been admitted in
    each of the five categories every limit is non-zero and every usage ratio
    is negative, but [Saturation] returns 0: it is strictly greater than, and
    so different from, every category's ratio.  And once a NaN amount has been
    admitted the Spatial ratio is NaN and is not below the returned value. *)
Lemma C8_saturation_counterexample :
  (let minus_half := F32.div (F32.of_Z (-1)) (F32.of_Z 2) in
   let s :=
     fold_left (fun s type => snd (Err.Request type minus_half s)) Err.types
       fresh_error in
   F32.valid minus_half = true /\
   (forall type, F32.is_zero (Err.Limit (Err.budget_of s type)) = false) /\
   (forall type, F32.is_nan (Err.GetUsage type s) = false) /\
   Err.Saturation s = F32.zero /\
   (forall type, F32.lt (Err.GetUsage type s) (Err.Saturation s) = true) /\
   (forall type, Err.Saturation s <> Err.GetUsage type s)) /\
  (let s := snd (Err.Request Err.Spatial F32.nan fresh_error) in
   (forall type, F32.is_zero (Err.Limit (Err.budget_of s type)) = false) /\
   F32.le (Err.GetUsage Err.Spatial s) (Err.Saturation s) = false).
Proof.
  split.
  - cbv zeta. split; [reflexivity|]. split; [intros []; reflexivity|].
    split; [intros []; reflexivity|]. split; [reflexivity|].
    split; [intros []; reflexivity|].
    intros []; vm_compute; congruence.
  - cbv zeta. split; [intros []; reflexivity | reflexivity].
Qed.

(** C8 (amended).  In every state in which no category's usage ratio is NaN,
    [Saturation] returns the maximum of 0 and the five usage ratios: the
    result is at least 0 and at least every ratio, and it is either the
    initial 0 or the ratio of some category.  When some ratio is at least 0 it
    is therefore the maximum usage ratio: some category's ratio compares equal
    to it and no category's ratio exceeds it. *)
Theorem C8_saturation (s : Err.t) :
  (forall type, F32.is_nan (Err.GetUsage type s) = false) ->
  F32.le F32.zero (Err.Saturation s) = true /\
  (forall type, F32.le (Err.GetUsage type s) (Err.Saturation s) = true) /\
  (Err.Saturation s = F32.zero \/
   exists type, Err.Saturation s = Err.GetUsage type s) /\
  ((exists type, F32.le F32.zero (Err.GetUsage type s) = true) ->
   exists type,
     F32.eq (Err.GetUsage type s) (Err.Saturation s) = true /\
     forall type', F32.le (Err.GetUsage type' s) (Err.Saturation s) = true).
Proof.
  intros Hnan.
  pose proof (fold_max_spec (map (fun type => Err.GetUsage type s) Err.types)
                F32.zero eq_refl) as H.
  change (fold_left F32.max (map (fun type => Err.GetUsage type s) Err.types)
            F32.zero) with (Err.Saturation s) in H.
  destruct H as (Hn & Hz & Hall & Hch).
  { apply Forall_map, Forall_forall. intros type _. apply Hnan. }
  assert (Hup : forall type,
             F32.le (Err.GetUsage type s) (Err.Saturation s) = true).
  { intros type. rewrite Forall_map, Forall_forall in Hall.
    apply Hall. destruct type; simpl; repeat constructor. }
  assert (Hsel : Err.Saturation s = F32.zero \/
                 exists type, Err.Saturation s = Err.GetUsage type s).
  { destruct Hch as [Hch|Hch]; [left; exact Hch | right].
    apply in_map_iff in Hch. destruct Hch as (type & Heq & _).
    exists type. symmetry. exact Heq. }
  split; [exact Hz|]. split; [exact Hup|]. split; [exact Hsel|].
  intros [t0 Ht0]. destruct Hsel as [Hzero|[type Heq]].
  - exists t0. split; [|exact Hup].
    apply le_antisym_eq; [apply Hup|]. rewrite Hzero. exact Ht0.
  - exists type. split; [|exact Hup].
    rewrite Heq. apply le_antisym_eq; apply le_refl, Hnan.
Qed.

Lemma C8_saturation_witness :
  let s := snd (Err.Request Err.Temporal F32.half fresh_error) in
  F32.le (Err.GetUsage Err.Temporal s) (Err.Saturation s) = true /\
  Err.Saturation s = F32.div F32.half F32.c0_8.
Proof.
  cbv zeta.
  destruct (C8_saturation
              (snd (Err.Request Err.Temporal F32.half fresh_error)))
    as (_ & Hup & _); [intros []; reflexivity|].
  split; [apply Hup | reflexivity].
Defined.

(** ** Construction *)

(** C9 (as stated, refuted).  A freshly constructed error ledger has limit
    1.0 for Spatial, which is not zero. *)
Lemma C9_construction_counterexample :
  let s := fresh_error in
  Err.Limit (Err.budget_of s Err.Spatial) = F32.one /\
  ~ (forall type, F32.is_zero (Err.Limit (Err.budget_of s type)) = true).
Proof.
  cbv zeta. split; [reflexivity|].
  intros H. specialize (H Err.Spatial). vm_compute in H. discriminate H.
Qed.

(** C9 (amended).  Whatever the uninitialised object holds, construction
    leaves the memory ledger with every counter, every limit and the total
    budget at zero, and the error ledger with every counter at zero and every
    limit at its base constant, none of which is zero. *)
Theorem C9_construction (mu : Mem.t) (eu : Err.t) :
  Err.wf eu ->
  Mem.create mu = Mem.mkSystem (replicate Mem.Count (Mem.mkBudget 0 0)) 0 /\
  (forall domain, Mem.budget_of (Mem.create mu) domain = Mem.mkBudget 0 0) /\
  Mem.TotalBudget (Mem.create mu) = 0 /\
  (forall type,
     Err.budget_of (Err.create eu) type
       = Err.mkBudget F32.zero (Err.BaseLimits !!! Err.index type)) /\
  (forall type, F32.is_zero (Err.BaseLimits !!! Err.index type) = false).
Proof.
  intros Hwf. split; [reflexivity|]. split; [intros []; reflexivity|].
  split; [reflexivity|]. split.
  - intros type. unfold Err.budget_of, Err.create.
    rewrite (EReset_budgets eu Hwf). destruct type; reflexivity.
  - intros []; reflexivity.
Qed.

Lemma C9_construction_witness :
  let eu := Err.mkSystem (replicate 5 (Err.mkBudget F32.nan F32.nan)) in
  Err.budget_of (Err.create eu) Err.Volumetric = Err.mkBudget F32.zero F32.c0_7.
Proof.
  cbv zeta.
  destruct (C9_construction (Mem.mkSystem (replicate 8 inhabitant) 7)
              (Err.mkSystem (replicate 5 (Err.mkBudget F32.nan F32.nan))))
    as (_ & _ & _ & He & _); [reflexivity|].
  rewrite He. reflexivity.
Defined.

(** ** Wrap-around in the memory ledger *)

(** C10.  The memory ledger's [Request] checks and updates modulo 2^64: it
    admits exactly when [(UsedBytes + bytes) mod 2^64 <= MaxBytes] and then
    stores [(UsedBytes + bytes) mod 2^64]; and there is a ledger built through
    the public interface, with an amount, whose exact sum exceeds both the
    limit and 2^64 and which is admitted. *)
Theorem C10_wraparound
    (domain : Mem.FrameMemoryDomain) (bytes : Z) (s : Mem.t) :
  Mem.wf s ->
  let b := Mem.budget_of s domain in
  let r := Mem.Request domain bytes s in
  (fst r = true <-> (Mem.UsedBytes b + bytes) mod 2 ^ 64 <= Mem.MaxBytes b) /\
  (fst r = true ->
     Mem.UsedBytes (Mem.budget_of (snd r) domain)
       = (Mem.UsedBytes b + bytes) mod 2 ^ 64) /\
  (exists s0 d0 bytes0,
     Mem.reachable s0 /\ U64.in_range bytes0 /\
     Mem.UsedBytes (Mem.budget_of s0 d0) + bytes0
       > Mem.MaxBytes (Mem.budget_of s0 d0) /\
     Mem.UsedBytes (Mem.budget_of s0 d0) + bytes0 > 2 ^ 64 /\
     fst (Mem.Request d0 bytes0 s0) = true).
Proof.
  intros (Hlen & _ & _). cbv zeta. split; [|split].
  - apply Request_true.
  - intros E. rewrite (Request_accepted _ _ _ E).
    rewrite budget_of_insert_eq by exact Hlen. reflexivity.
  - exists (snd (Mem.Request Mem.Geometry 2
                   (Mem.Initialize 100 fresh_memory))),
      Mem.Geometry, (2 ^ 64 - 1).
    split.
    { apply Mem.reach_Request; [|concrete_range].
      apply Mem.reach_Initialize; [|concrete_range].
      apply Mem.reach_create. concrete_mem_wf. }
    split; [concrete_range|].
    vm_compute. repeat split; reflexivity.
Qed.

Lemma C10_wraparound_witness :
  let s := snd (Mem.Request Mem.Geometry 2
                  (Mem.Initialize 100 fresh_memory)) in
  let r := Mem.Request Mem.Geometry (2 ^ 64 - 1) s in
  fst r = true /\ Mem.UsedBytes (Mem.budget_of (snd r) Mem.Geometry) = 1.
Proof.
  cbv zeta.
  destruct (C10_wraparound Mem.Geometry (2 ^ 64 - 1)
              (snd (Mem.Request Mem.Geometry 2
                      (Mem.Initialize 100 fresh_memory))))
    as (Hiff & Hset & _); [concrete_mem_wf|].
  assert (E : fst (Mem.Request Mem.Geometry (2 ^ 64 - 1)
                     (snd (Mem.Request Mem.Geometry 2
                             (Mem.Initialize 100
                                fresh_memory)))) = true).
  { apply Hiff. vm_compute. congruence. }
  split; [exact E | rewrite (Hset E); reflexivity].
Defined.

(** * Further properties of the two ledgers *)

(** ** Memory ledger: what a request touches *)

Section MemoryRequests.

Import FrameMemoryBudgetSystem.

Lemma budget_of_Request_ne d d' bytes s :
  d' <> d -> budget_of (snd (Request d bytes s)) d' = budget_of s d'.
Proof.
  intros Hne. destruct (fst (Request d bytes s)) eqn:E.
  - rewrite (Request_accepted _ _ _ E).
    rewrite budget_of_insert_ne by exact Hne. destruct s; reflexivity.
  - rewrite (Request_refused _ _ _ E). reflexivity.
Qed.

Lemma budget_of_Request_eq d bytes s :
  wf s -> fst (Request d bytes s) = true ->
  budget_of (snd (Request d bytes s)) d =
    mkBudget (MaxBytes (budget_of s d)) (U64.add (UsedBytes (budget_of s d)) bytes).
Proof.
  intros (Hlen & _) E. rewrite (Request_accepted _ _ _ E).
  apply budget_of_insert_eq, Hlen.
Qed.

Lemma Request_verdict_local d bytes s s' :
  budget_of s d = budget_of s' d ->
  fst (Request d bytes s) = fst (Request d bytes s').
Proof.
  intros H. unfold Request. rewrite H. destruct (_ >? _); reflexivity.
Qed.

Lemma Request_limit d bytes s d' :
  wf s ->
  MaxBytes (budget_of (snd (Request d bytes s)) d') = MaxBytes (budget_of s d').
Proof.
  intros Hwf. destruct (decide (d' = d)) as [->|Hne].
  - destruct (fst (Request d bytes s)) eqn:E.
    + rewrite budget_of_Request_eq by assumption. reflexivity.
    + rewrite (Request_refused _ _ _ E). reflexivity.
  - rewrite budget_of_Request_ne by exact Hne. reflexivity.
Qed.

Lemma GetRemaining_exact d s :
  wf s -> UsedBytes (budget_of s d) <= MaxBytes (budget_of s d) ->
  GetRemaining d s = MaxBytes (budget_of s d) - UsedBytes (budget_of s d).
Proof.
  intros Hwf Hle. pose proof (budget_of_ok s d Hwf) as [Hm Hu].
  unfold GetRemaining.
  destruct (Z.gtb_spec (MaxBytes (budget_of s d)) (UsedBytes (budget_of s d))).
  - unfold U64.sub. apply wrap_small. unfold U64.in_range in *. lia.
  - lia.
Qed.

Lemma limit_cap_value : limit_cap = 184467440737095516.
Proof. reflexivity. Qed.

Lemma share_capped total p : U64.div (U64.mul total p) 100 <= limit_cap.
Proof.
  pose proof (wrap_in_range (total * p)) as H.
  unfold U64.div, U64.mul, limit_cap.
  apply Z.div_le_mono; [lia|]. unfold U64.in_range in H. lia.
Qed.

Lemma reachable_capped s : reachable s -> capped s.
Proof.
  induction 1 as [u Hu | total s Hs IH Ht | s Hs IH | d bytes s Hs IH Hb | s Hs IH].
  - intros []; rewrite limit_cap_value; simpl; lia.
  - destruct (reachable_wf_conserved s Hs) as [(Hlen & _) _].
    intros d. unfold budget_of. rewrite (Initialize_budgets _ _ Hlen).
    destruct d; simpl; apply share_capped.
  - destruct (reachable_wf_conserved s Hs) as [(Hlen & _) _].
    intros d. rewrite (budget_of_BeginFrame _ _ Hlen). simpl. apply IH.
  - destruct (reachable_wf_conserved s Hs) as [Hwf _].
    intros d'. rewrite Request_limit by exact Hwf. apply IH.
  - intros []; rewrite limit_cap_value; simpl; lia.
Qed.

End MemoryRequests.

(** X1.  Every ledger built through the public interface of the memory
    ledger, whatever the order of [Initialize], [BeginFrame], [Request] and
    [Reset] calls and whatever the amounts, has in every domain a counter
    within its limit and a limit of at most [(2^64 - 1) / 100]. *)
Theorem memory_reachable_invariant (s : Mem.t) :
  Mem.reachable s ->
  Mem.wf s /\
  forall domain,
    0 <= Mem.UsedBytes (Mem.budget_of s domain)
      <= Mem.MaxBytes (Mem.budget_of s domain) /\
    Mem.MaxBytes (Mem.budget_of s domain) <= Mem.limit_cap.
Proof.
  intros Hr. destruct (reachable_wf_conserved s Hr) as [Hwf Hc].
  split; [exact Hwf|]. intros d.
  pose proof (budget_of_ok s d Hwf) as [_ [Hu _]].
  split; [split; [exact Hu | apply Hc] | apply reachable_capped, Hr].
Qed.

Lemma memory_reachable_invariant_witness :
  let s := snd (Mem.Request Mem.UI (2 ^ 64 - 1)
                  (snd (Mem.Request Mem.UI 3
                          (Mem.Initialize (2 ^ 64 - 1) fresh_memory)))) in
  0 <= Mem.UsedBytes (Mem.budget_of s Mem.UI)
    <= Mem.MaxBytes (Mem.budget_of s Mem.UI).
Proof.
  cbv zeta.
  apply (memory_reachable_invariant
           (snd (Mem.Request Mem.UI (2 ^ 64 - 1)
                   (snd (Mem.Request Mem.UI 3
                           (Mem.Initialize (2 ^ 64 - 1) fresh_memory)))))).
  apply Mem.reach_Request; [|concrete_range].
  apply Mem.reach_Request; [|concrete_range].
  apply Mem.reach_Initialize; [|concrete_range].
  apply Mem.reach_create. concrete_mem_wf.
Defined.

(** X2.  On a ledger built through the public interface, a request of at most
    [2^64 - 1 - (2^64 - 1) / 100] bytes is decided on the exact sum: it is
    admitted exactly when [UsedBytes + bytes <= MaxBytes], and then the
    counter grows by exactly [bytes].  Wrap-around can only be provoked by
    larger amounts. *)
Theorem Request_exact_below_cap
    (domain : Mem.FrameMemoryDomain) (bytes : Z) (s : Mem.t) :
  Mem.reachable s ->
  0 <= bytes <= U64.modulus - 1 - Mem.limit_cap ->
  let b := Mem.budget_of s domain in
  let r := Mem.Request domain bytes s in
  (fst r = true <-> Mem.UsedBytes b + bytes <= Mem.MaxBytes b) /\
  (fst r = true ->
     Mem.UsedBytes (Mem.budget_of (snd r) domain) = Mem.UsedBytes b + bytes).
Proof.
  intros Hr Hb. cbv zeta.
  destruct (reachable_wf_conserved s Hr) as [Hwf Hc].
  pose proof (reachable_capped s Hr domain) as Hcap.
  pose proof (budget_of_ok s domain Hwf) as [_ Hu].
  specialize (Hc domain).
  assert (Hadd : U64.add (Mem.UsedBytes (Mem.budget_of s domain)) bytes
                 = Mem.UsedBytes (Mem.budget_of s domain) + bytes).
  { apply wrap_small. unfold U64.in_range in *. lia. }
  split.
  - rewrite Request_true, Hadd. reflexivity.
  - intros E. rewrite budget_of_Request_eq by assumption. simpl. exact Hadd.
Qed.

Lemma Request_exact_below_cap_witness :
  let s := snd (Mem.Request Mem.AI 5 (Mem.Initialize 100 fresh_memory)) in
  fst (Mem.Request Mem.AI (2 ^ 64 - 1 - Mem.limit_cap) s) = false /\
  fst (Mem.Request Mem.AI 2 s) = true.
Proof.
  cbv zeta.
  assert (Hr : Mem.reachable
                 (snd (Mem.Request Mem.AI 5 (Mem.Initialize 100 fresh_memory)))).
  { apply Mem.reach_Request; [|concrete_range].
    apply Mem.reach_Initialize; [|concrete_range].
    apply Mem.reach_create. concrete_mem_wf. }
  split.
  - destruct (Request_exact_below_cap Mem.AI (2 ^ 64 - 1 - Mem.limit_cap) _ Hr)
      as [Hiff _]; [concrete_range|].
    apply not_true_iff_false. intros E. apply Hiff in E.
    revert E. cbv -[Z.le]. lia.
  - apply (Request_exact_below_cap Mem.AI 2 _ Hr); [concrete_range|].
    cbv -[Z.le]. lia.
Defined.

(** X3.  In a well-formed memory ledger whose counter for a domain is within
    its limit, a request of at most [GetRemaining] bytes is always admitted
    and lowers [GetRemaining] of that domain by exactly the amount; a request
    of more than [GetRemaining] whose sum does not wrap is refused; and no
    request changes what another domain has left. *)
Theorem Request_within_remaining
    (domain : Mem.FrameMemoryDomain) (bytes : Z) (s : Mem.t) :
  Mem.wf s ->
  Mem.UsedBytes (Mem.budget_of s domain) <= Mem.MaxBytes (Mem.budget_of s domain) ->
  0 <= bytes ->
  let r := Mem.Request domain bytes s in
  (bytes <= Mem.GetRemaining domain s ->
     fst r = true /\
     Mem.GetRemaining domain (snd r) = Mem.GetRemaining domain s - bytes) /\
  (Mem.GetRemaining domain s < bytes ->
   Mem.UsedBytes (Mem.budget_of s domain) + bytes < U64.modulus ->
     r = (false, s)) /\
  (forall d', d' <> domain ->
     Mem.GetRemaining d' (snd r) = Mem.GetRemaining d' s).
Proof.
  intros Hwf Hle Hb. cbv zeta.
  pose proof (budget_of_ok s domain Hwf) as [Hm Hu].
  pose proof (GetRemaining_exact domain s Hwf Hle) as Hrem.
  assert (Hadd : Mem.UsedBytes (Mem.budget_of s domain) + bytes < U64.modulus ->
                 U64.add (Mem.UsedBytes (Mem.budget_of s domain)) bytes
                 = Mem.UsedBytes (Mem.budget_of s domain) + bytes).
  { intros H. apply wrap_small. unfold U64.in_range in *. lia. }
  split; [|split].
  - intros Hfit.
    assert (Hsmall : Mem.UsedBytes (Mem.budget_of s domain) + bytes < U64.modulus)
      by (unfold U64.in_range in *; lia).
    assert (E : fst (Mem.Request domain bytes s) = true).
    { rewrite Request_true, (Hadd Hsmall). lia. }
    split; [exact E|].
    pose proof (budget_of_Request_eq domain bytes s Hwf E) as Hnew.
    rewrite (Hadd Hsmall) in Hnew.
    rewrite (GetRemaining_exact domain (snd (Mem.Request domain bytes s))).
    + rewrite Hnew. simpl. lia.
    + apply Request_wf, Hwf.
    + rewrite Hnew. simpl. lia.
  - intros Hover Hsmall.
    destruct (fst (Mem.Request domain bytes s)) eqn:E.
    + exfalso. rewrite Request_true, (Hadd Hsmall) in E. lia.
    + pose proof (Request_refused _ _ _ E) as Hs.
      destruct (Mem.Request domain bytes s) as [v s']. simpl in E, Hs.
      rewrite E, Hs. reflexivity.
  - intros d' Hne. unfold Mem.GetRemaining.
    rewrite budget_of_Request_ne by exact Hne. reflexivity.
Qed.

Lemma Request_within_remaining_witness :
  let s := snd (Mem.Request Mem.Textures 5 (Mem.Initialize 100 fresh_memory)) in
  fst (Mem.Request Mem.Textures 20 s) = true /\
  Mem.GetRemaining Mem.Textures (snd (Mem.Request Mem.Textures 20 s)) = 0 /\
  Mem.Request Mem.Textures 21 s = (false, s).
Proof.
  cbv zeta.
  assert (Hwf : Mem.wf (snd (Mem.Request Mem.Textures 5
                               (Mem.Initialize 100 fresh_memory))))
    by concrete_mem_wf.
  split; [|split].
  - apply (Request_within_remaining Mem.Textures 20 _ Hwf);
      [cbv -[Z.le]; lia | lia | cbv -[Z.le]; lia].
  - destruct (Request_within_remaining Mem.Textures 20 _ Hwf) as [Hfit _];
      [cbv -[Z.le]; lia | lia |].
    destruct Hfit as [_ ->]; [cbv -[Z.le]; lia | reflexivity].
  - apply (Request_within_remaining Mem.Textures 21 _ Hwf);
      [cbv -[Z.le]; lia | lia | cbv -[Z.lt]; lia | cbv -[Z.lt]; lia].
Defined.

(** X4.  A request of zero bytes never changes a well-formed memory ledger,
    and it is admitted exactly when the domain's counter is within its
    limit. *)
Theorem Request_zero_bytes (domain : Mem.FrameMemoryDomain) (s : Mem.t) :
  Mem.wf s ->
  snd (Mem.Request domain 0 s) = s /\
  (fst (Mem.Request domain 0 s) = true <->
   Mem.UsedBytes (Mem.budget_of s domain) <= Mem.MaxBytes (Mem.budget_of s domain)).
Proof.
  intros Hwf. pose proof (budget_of_ok s domain Hwf) as [_ Hu].
  assert (Hadd : U64.add (Mem.UsedBytes (Mem.budget_of s domain)) 0
                 = Mem.UsedBytes (Mem.budget_of s domain)).
  { unfold U64.add. rewrite Z.add_0_r. apply wrap_small, Hu. }
  split.
  - destruct (fst (Mem.Request domain 0 s)) eqn:E.
    + rewrite (Request_accepted _ _ _ E), Hadd.
      destruct Hwf as (Hlen & _). destruct s as [l t]. simpl in *. f_equal.
      apply list_insert_id. unfold Mem.budget_of. simpl.
      rewrite (list_lookup_lookup_total_lt l (Mem.index domain))
        by (rewrite Hlen; apply index_lt).
      destruct (l !!! Mem.index domain); reflexivity.
    + apply Request_refused, E.
  - rewrite Request_true, Hadd. reflexivity.
Qed.

Lemma Request_zero_bytes_witness :
  let s := Mem.mkSystem (replicate 8 (Mem.mkBudget 5 9)) 40 in
  snd (Mem.Request Mem.Physics 0 s) = s /\
  fst (Mem.Request Mem.Physics 0 fresh_memory) = true.
Proof.
  cbv zeta. split.
  - apply (Request_zero_bytes Mem.Physics
             (Mem.mkSystem (replicate 8 (Mem.mkBudget 5 9)) 40)).
    concrete_mem_wf.
  - apply (Request_zero_bytes Mem.Physics fresh_memory);
      [concrete_mem_wf | cbv -[Z.le]; lia].
Defined.

(** X5.  Requests to two different domains of the memory ledger do not
    interfere: issued in either order they get the same two verdicts and
    leave the same ledger. *)
Theorem Request_domains_commute
    (d1 d2 : Mem.FrameMemoryDomain) (a b : Z) (s : Mem.t) :
  d1 <> d2 ->
  let first1 := Mem.Request d1 a s in
  let then2 := Mem.Request d2 b (snd first1) in
  let first2 := Mem.Request d2 b s in
  let then1 := Mem.Request d1 a (snd first2) in
  fst first1 = fst then1 /\ fst then2 = fst first2 /\ snd then2 = snd then1.
Proof.
  intros Hne. cbv zeta.
  assert (Hne' : d2 <> d1) by congruence.
  assert (Hidx : Mem.index d1 <> Mem.index d2)
    by (intros H; apply Hne, index_inj, H).
  pose proof (budget_of_Request_ne d2 d1 b s Hne) as H1.
  pose proof (budget_of_Request_ne d1 d2 a s Hne') as H2.
  assert (V1 : fst (Mem.Request d1 a s)
               = fst (Mem.Request d1 a (snd (Mem.Request d2 b s))))
    by (apply Request_verdict_local; symmetry; exact H1).
  assert (V2 : fst (Mem.Request d2 b (snd (Mem.Request d1 a s)))
               = fst (Mem.Request d2 b s))
    by (apply Request_verdict_local; exact H2).
  split; [exact V1|]. split; [exact V2|].
  destruct (fst (Mem.Request d1 a s)) eqn:E1;
    destruct (fst (Mem.Request d2 b s)) eqn:E2.
  - symmetry in V1. rewrite (Request_accepted _ _ _ V2), (Request_accepted _ _ _ V1).
    rewrite H1, H2.
    rewrite (Request_accepted _ _ _ E1), (Request_accepted _ _ _ E2). simpl.
    f_equal. apply list_insert_insert_ne. congruence.
  - symmetry in V1. rewrite (Request_refused _ _ _ V2).
    rewrite (Request_accepted _ _ _ V1), H1.
    rewrite (Request_accepted _ _ _ E1), (Request_refused _ _ _ E2).
    reflexivity.
  - symmetry in V1. rewrite (Request_accepted _ _ _ V2), H2.
    rewrite (Request_refused _ _ _ V1).
    rewrite (Request_refused _ _ _ E1), (Request_accepted _ _ _ E2).
    reflexivity.
  - symmetry in V1. rewrite (Request_refused _ _ _ V2), (Request_refused _ _ _ V1).
    rewrite (Request_refused _ _ _ E1), (Request_refused _ _ _ E2).
    reflexivity.
Qed.

Lemma Request_domains_commute_witness :
  let s := Mem.Initialize 100 fresh_memory in
  snd (Mem.Request Mem.Audio 4 (snd (Mem.Request Mem.Geometry 31 s)))
  = snd (Mem.Request Mem.Geometry 31 (snd (Mem.Request Mem.Audio 4 s))).
Proof.
  cbv zeta.
  apply (Request_domains_commute Mem.Geometry Mem.Audio 31 4
           (Mem.Initialize 100 fresh_memory)).
  discriminate.
Defined.

(** ** Memory ledger: frame boundaries and totals *)

(** Instantiate a per-domain fact at the eight domains. *)
Ltac per_domain H :=
  pose proof (H Mem.Geometry); pose proof (H Mem.Animation);
  pose proof (H Mem.Textures); pose proof (H Mem.Particles);
  pose proof (H Mem.AI); pose proof (H Mem.Audio);
  pose proof (H Mem.Physics); pose proof (H Mem.UI).

Section MemoryTotals.

Import FrameMemoryBudgetSystem.

Lemma wf_view s :
  wf s ->
  exists b0 b1 b2 b3 b4 b5 b6 b7,
    Budgets s = [b0; b1; b2; b3; b4; b5; b6; b7] /\
    Forall budget_ok [b0; b1; b2; b3; b4; b5; b6; b7].
Proof.
  intros (Hlen & Hall & _).
  destruct (budgets_shape _ Hlen) as (b0&b1&b2&b3&b4&b5&b6&b7&E).
  exists b0, b1, b2, b3, b4, b5, b6, b7. rewrite <- E. split; [reflexivity | exact Hall].
Qed.

Ltac view s Hwf :=
  let E := fresh "E" in
  let Hall := fresh "Hall" in
  destruct (wf_view s Hwf) as (?b&?b&?b&?b&?b&?b&?b&?b&E&Hall);
  repeat match goal with
         | H : Forall _ (_ :: _) |- _ => apply Forall_cons in H; destruct H as [[? ?] H]
         end;
  clear Hall.

Lemma sum_used_bounds s :
  wf s -> conserved s -> 0 <= sum_used s <= sum_limits s.
Proof.
  intros Hwf Hc. view s Hwf.
  unfold sum_used, sum_limits, conserved, budget_of in *. rewrite E in *.
  per_domain Hc. simpl in *. unfold U64.in_range in *. lia.
Qed.

Lemma sum_limits_capped s :
  wf s -> capped s -> sum_limits s <= 8 * limit_cap.
Proof.
  intros Hwf Hc. view s Hwf.
  unfold sum_limits, capped, budget_of in *. rewrite E in *.
  per_domain Hc. simpl in *. lia.
Qed.

Lemma sum_remaining_exact s :
  wf s -> conserved s -> sum_remaining s = sum_limits s - sum_used s.
Proof.
  intros Hwf Hc. unfold sum_remaining. simpl.
  rewrite !GetRemaining_exact by (try exact Hwf; apply Hc).
  view s Hwf. unfold sum_limits, sum_used, budget_of. rewrite E. simpl. lia.
Qed.

(** The 64-bit running sum of [GetTotalRemaining] is the exact sum when that
    sum fits. *)
Lemma used_loop_exact s :
  wf s -> sum_used s < U64.modulus ->
  fold_left (fun u i => U64.add u (UsedBytes (Budgets s !!! i))) (seq 0 Count) 0
  = sum_used s.
Proof.
  intros Hwf Hsum. view s Hwf. unfold sum_used in *. rewrite E in *.
  simpl in *. unfold U64.add. unfold U64.in_range in *.
  repeat match goal with
         | |- context [U64.wrap ?x] =>
             lazymatch x with
             | context [U64.wrap _] => fail
             | _ => rewrite (wrap_small x) by (unfold U64.in_range; lia)
             end
         end.
  lia.
Qed.

Lemma GetTotalRemaining_exact s :
  wf s -> sum_used s < U64.modulus ->
  GetTotalRemaining s = Z.max 0 (TotalBudget s - sum_used s).
Proof.
  intros Hwf Hsum. unfold GetTotalRemaining.
  rewrite (used_loop_exact s Hwf Hsum).
  assert (Hnn : 0 <= sum_used s).
  { view s Hwf. unfold sum_used. rewrite E. simpl. unfold U64.in_range in *. lia. }
  destruct Hwf as (_ & _ & Ht).
  destruct (Z.gtb_spec (TotalBudget s) (sum_used s)).
  - unfold U64.sub. rewrite wrap_small; unfold U64.in_range in *; lia.
  - lia.
Qed.

End MemoryTotals.

(** X6.  [BeginFrame] zeroes every counter and keeps every limit and the
    total budget; right after it each domain has its whole limit left, the
    total remaining is the total budget, and a request is admitted exactly
    when it is at most the domain's limit. *)
Theorem BeginFrame_opens_frame
    (domain : Mem.FrameMemoryDomain) (bytes : Z) (s : Mem.t) :
  Mem.wf s ->
  U64.in_range bytes ->
  let s' := Mem.BeginFrame s in
  (forall d, Mem.budget_of s' d = Mem.mkBudget (Mem.MaxBytes (Mem.budget_of s d)) 0) /\
  Mem.TotalBudget s' = Mem.TotalBudget s /\
  Mem.GetRemaining domain s' = Mem.MaxBytes (Mem.budget_of s domain) /\
  Mem.GetTotalRemaining s' = Mem.TotalBudget s /\
  (fst (Mem.Request domain bytes s') = true
   <-> bytes <= Mem.MaxBytes (Mem.budget_of s domain)).
Proof.
  intros Hwf Hb. cbv zeta.
  pose proof (BeginFrame_wf s Hwf) as Hwf'.
  pose proof (budget_of_ok s domain Hwf) as [Hm _].
  assert (Hlen : length (Mem.Budgets s) = Mem.Count) by apply Hwf.
  assert (Hnew : forall d, Mem.budget_of (Mem.BeginFrame s) d
                           = Mem.mkBudget (Mem.MaxBytes (Mem.budget_of s d)) 0)
    by (intros d; apply budget_of_BeginFrame, Hlen).
  split; [exact Hnew|]. split; [reflexivity|]. split; [|split].
  - rewrite GetRemaining_exact; rewrite ?Hnew; simpl;
      unfold U64.in_range in *; try lia; exact Hwf'.
  - assert (Hzero : Mem.sum_used (Mem.BeginFrame s) = 0).
    { unfold Mem.sum_used. rewrite (BeginFrame_budgets s Hlen).
      destruct (budgets_shape _ Hlen) as (b0&b1&b2&b3&b4&b5&b6&b7&->).
      reflexivity. }
    rewrite GetTotalRemaining_exact; rewrite ?Hzero;
      [|exact Hwf' | reflexivity].
    destruct Hwf as (_ & _ & Ht). simpl. unfold U64.in_range in Ht. lia.
  - rewrite Request_true, Hnew. simpl. unfold U64.add.
    rewrite Z.add_0_l, wrap_small by exact Hb. reflexivity.
Qed.

Lemma BeginFrame_opens_frame_witness :
  let s := snd (Mem.Request Mem.Particles 8 (Mem.Initialize 100 fresh_memory)) in
  fst (Mem.Request Mem.Particles 8 s) = false /\
  fst (Mem.Request Mem.Particles 8 (Mem.BeginFrame s)) = true /\
  Mem.GetTotalRemaining (Mem.BeginFrame s) = 100.
Proof.
  cbv zeta. split; [reflexivity|].
  destruct (BeginFrame_opens_frame Mem.Particles 8
              (snd (Mem.Request Mem.Particles 8 (Mem.Initialize 100 fresh_memory))))
    as (_ & _ & _ & Ht & Hiff); [concrete_mem_wf | concrete_range |].
  split; [apply Hiff; cbv -[Z.le]; lia | rewrite Ht; reflexivity].
Defined.

(** X7.  [Initialize] overwrites the whole ledger: its result depends only on
    the total passed, not on the limits or counters the ledger held before,
    so re-initialising mid-frame discards all consumption; afterwards every
    counter is zero and every domain has its whole limit left. *)
Theorem Initialize_overwrites (total : Z) (s s' : Mem.t) :
  Mem.wf s ->
  Mem.wf s' ->
  Mem.Initialize total s = Mem.Initialize total s' /\
  forall domain,
    Mem.UsedBytes (Mem.budget_of (Mem.Initialize total s) domain) = 0 /\
    Mem.GetRemaining domain (Mem.Initialize total s)
      = Mem.MaxBytes (Mem.budget_of (Mem.Initialize total s) domain).
Proof.
  intros (Hlen & _) (Hlen' & _).
  pose proof (Initialize_budgets total s Hlen) as E.
  pose proof (Initialize_budgets total s' Hlen') as E'.
  split.
  - unfold Mem.Initialize in *. simpl in *. rewrite E, E'. reflexivity.
  - intros d. unfold Mem.GetRemaining, Mem.budget_of. rewrite E.
    pose proof (share_in_range total) as Hr.
    assert (Hsub : forall p, U64.sub (U64.div (U64.mul total p) 100) 0
                             = U64.div (U64.mul total p) 100).
    { intros p. unfold U64.sub. rewrite Z.sub_0_r. apply wrap_small, Hr. }
    destruct d; simpl; (split; [reflexivity|]);
      match goal with
      | |- (if ?x >? 0 then _ else _) = _ =>
          destruct (Z.gtb_spec x 0) as [Hgt|Hle];
          [apply Hsub | pose proof (Hr 30); pose proof (Hr 25);
                        pose proof (Hr 10); pose proof (Hr 8);
                        pose proof (Hr 7); pose proof (Hr 6);
                        unfold U64.in_range in *; lia]
      end.
Qed.

Lemma Initialize_overwrites_witness :
  let s := snd (Mem.Request Mem.Geometry 12 (Mem.Initialize 50 fresh_memory)) in
  Mem.Initialize 200 s = Mem.Initialize 200 fresh_memory /\
  Mem.GetRemaining Mem.Geometry (Mem.Initialize 200 s) = 60.
Proof.
  cbv zeta.
  destruct (Initialize_overwrites 200
              (snd (Mem.Request Mem.Geometry 12 (Mem.Initialize 50 fresh_memory)))
              fresh_memory) as [Heq Hd]; [concrete_mem_wf | concrete_mem_wf |].
  split; [exact Heq|].
  destruct (Hd Mem.Geometry) as [_ ->]. reflexivity.
Defined.

(** X8.  On every ledger built through the public interface the 64-bit sum
    in [GetTotalRemaining] cannot wrap: the function returns
    [max(0, TotalBudget - sum of all counters)] with the exact sum. *)
Theorem GetTotalRemaining_reachable (s : Mem.t) :
  Mem.reachable s ->
  Mem.sum_used s < U64.modulus /\
  Mem.GetTotalRemaining s = Z.max 0 (Mem.TotalBudget s - Mem.sum_used s).
Proof.
  intros Hr. destruct (reachable_wf_conserved s Hr) as [Hwf Hc].
  pose proof (reachable_capped s Hr) as Hcap.
  pose proof (sum_used_bounds s Hwf Hc) as Hu.
  pose proof (sum_limits_capped s Hwf Hcap) as Hl.
  assert (Hsum : Mem.sum_used s < U64.modulus).
  { rewrite limit_cap_value in Hl. rewrite modulus_value. lia. }
  split; [exact Hsum | apply GetTotalRemaining_exact; assumption].
Qed.

Lemma GetTotalRemaining_reachable_witness :
  let s := snd (Mem.Request Mem.Textures 9
                  (snd (Mem.Request Mem.Geometry 10
                          (Mem.Initialize 40 (Mem.Initialize 100 fresh_memory))))) in
  Mem.GetTotalRemaining s = 21.
Proof.
  cbv zeta.
  destruct (GetTotalRemaining_reachable
              (snd (Mem.Request Mem.Textures 9
                      (snd (Mem.Request Mem.Geometry 10
                              (Mem.Initialize 40
                                 (Mem.Initialize 100 fresh_memory)))))))
    as [_ ->]; [|reflexivity].
  apply Mem.reach_Request; [|concrete_range].
  apply Mem.reach_Request; [|concrete_range].
  apply Mem.reach_Initialize; [|concrete_range].
  apply Mem.reach_Initialize; [|concrete_range].
  apply Mem.reach_create. concrete_mem_wf.
Defined.

(** X9.  In a well-formed ledger whose counters are within their limits and
    whose limits sum to at most the total budget, [GetTotalRemaining] is the
    sum of the domains' [GetRemaining] plus the part of the total that no
    domain was given; in particular it is never smaller than that sum. *)
Theorem GetTotalRemaining_vs_domains (s : Mem.t) :
  Mem.wf s ->
  Mem.conserved s ->
  Mem.sum_limits s <= Mem.TotalBudget s ->
  Mem.GetTotalRemaining s
    = Mem.sum_remaining s + (Mem.TotalBudget s - Mem.sum_limits s) /\
  Mem.sum_remaining s <= Mem.GetTotalRemaining s.
Proof.
  intros Hwf Hc Hl.
  pose proof (sum_used_bounds s Hwf Hc) as Hu.
  pose proof (sum_remaining_exact s Hwf Hc) as Hrem.
  assert (Ht : U64.in_range (Mem.TotalBudget s)) by apply Hwf.
  rewrite GetTotalRemaining_exact;
    [lia | exact Hwf | unfold U64.in_range in Ht; lia].
Qed.

Lemma GetTotalRemaining_vs_domains_witness :
  let s := snd (Mem.Request Mem.Audio 5 (Mem.Initialize 99 fresh_memory)) in
  Mem.sum_remaining s = 87 /\ Mem.GetTotalRemaining s = 87 + 7.
Proof.
  cbv zeta.
  destruct (GetTotalRemaining_vs_domains
              (snd (Mem.Request Mem.Audio 5 (Mem.Initialize 99 fresh_memory))))
    as [-> _].
  - concrete_mem_wf.
  - intros []; cbv -[Z.le]; lia.
  - cbv -[Z.le]; lia.
  - split; reflexivity.
Defined.

Lemma BeginFrame_after_Request d bytes s :
  Mem.wf s -> Mem.BeginFrame (snd (Mem.Request d bytes s)) = Mem.BeginFrame s.
Proof.
  intros Hwf. destruct (fst (Mem.Request d bytes s)) eqn:E.
  - rewrite (Request_accepted _ _ _ E).
    destruct Hwf as (Hlen & _). destruct s as [l t]. simpl in Hlen.
    destruct (budgets_shape _ Hlen) as (b0&b1&b2&b3&b4&b5&b6&b7&->).
    destruct d; reflexivity.
  - rewrite (Request_refused _ _ _ E). reflexivity.
Qed.

(** X19.  [BeginFrame] discards whatever a frame's requests consumed: after
    any sequence of requests, admitted or refused, wrapped or not, it yields
    the same ledger as [BeginFrame] before them. *)
Theorem BeginFrame_discards_requests
    (calls : list (Mem.FrameMemoryDomain * Z)) (s : Mem.t) :
  Mem.wf s ->
  Mem.BeginFrame (Mem.request_all calls s) = Mem.BeginFrame s.
Proof.
  revert s. induction calls as [|[d bytes] rest IH]; intros s Hwf.
  - reflexivity.
  - unfold Mem.request_all in *. simpl.
    rewrite IH by (apply Request_wf, Hwf).
    apply BeginFrame_after_Request, Hwf.
Qed.

Lemma BeginFrame_discards_requests_witness :
  let s := Mem.Initialize 100 fresh_memory in
  Mem.BeginFrame
    (Mem.request_all
       [(Mem.Geometry, 20); (Mem.UI, 9); (Mem.Geometry, 2 ^ 64 - 1)] s) = s.
Proof.
  cbv zeta.
  rewrite (BeginFrame_discards_requests
             [(Mem.Geometry, 20); (Mem.UI, 9); (Mem.Geometry, 2 ^ 64 - 1)]
             (Mem.Initialize 100 fresh_memory)) by concrete_mem_wf.
  reflexivity.
Defined.

(** ** Memory ledger: criticality *)

(** Scenario D of the specification. *)
Example scenario_D :
  let at_ratio used max :=
    Mem.IsDomainCritical Mem.AI
      (Mem.mkSystem (replicate 8 (Mem.mkBudget max used)) 0) in
  at_ratio 90 100 = false /\ at_ratio 9001 10000 = true /\
  F32.c0_9 = F32.div (F32.of_Z 9) (F32.of_Z 10).
Proof. vm_compute. repeat split; reflexivity. Qed.

(** X10.  A domain whose counter is zero is never critical, whatever its
    limit; with a zero limit too (an uninitialised ledger) its usage ratio is
    the NaN of 0/0, which does not compare greater than 0.9. *)
Theorem IsDomainCritical_unused (domain : Mem.FrameMemoryDomain) (s : Mem.t) :
  Mem.UsedBytes (Mem.budget_of s domain) = 0 ->
  Mem.IsDomainCritical domain s = false /\
  (Mem.MaxBytes (Mem.budget_of s domain) = 0 ->
   F32.is_nan (Mem.GetUsageRatio domain s) = true).
Proof.
  intros Hu. unfold Mem.IsDomainCritical, Mem.GetUsageRatio. rewrite Hu.
  pose proof (binary_normalize_not_nan F32.prec F32.emax
                (Mem.MaxBytes (Mem.budget_of s domain)) 0 false) as Hn.
  fold (F32.of_Z (Mem.MaxBytes (Mem.budget_of s domain))) in Hn.
  split.
  - destruct (F32.of_Z (Mem.MaxBytes (Mem.budget_of s domain)))
      as [sy|sy| |sy my ey]; try discriminate; reflexivity.
  - intros ->. reflexivity.
Qed.

Lemma IsDomainCritical_unused_witness :
  Mem.IsDomainCritical Mem.UI fresh_memory = false /\
  Mem.IsDomainCritical Mem.UI (Mem.Initialize 100 fresh_memory) = false.
Proof.
  split.
  - apply (IsDomainCritical_unused Mem.UI fresh_memory). reflexivity.
  - apply (IsDomainCritical_unused Mem.UI (Mem.Initialize 100 fresh_memory)).
    reflexivity.
Defined.

(** ** Error ledger: saturation *)

Lemma lt_not_nan (x y : F32.float) :
  F32.lt x y = true -> F32.is_nan y = false.
Proof.
  unfold F32.lt, SFltb. destruct x, y; simpl; intros H; try discriminate; auto.
Qed.

(** The running maximum of [Saturation] stays defined and non-negative
    whatever the ratios are. *)
Lemma fold_max_floor (l : list F32.float) :
  forall m0,
    F32.is_nan m0 = false -> F32.le F32.zero m0 = true ->
    F32.is_nan (fold_left F32.max l m0) = false /\
    F32.le F32.zero (fold_left F32.max l m0) = true.
Proof.
  induction l as [|x l IH]; intros m0 Hn Hz; simpl; [auto|].
  apply IH; unfold F32.max; destruct (F32.lt m0 x) eqn:E; try assumption.
  - eapply lt_not_nan, E.
  - eapply le_trans; [exact Hz | apply lt_le, E].
Qed.

(** X11.  [Saturation] never returns NaN and never returns a negative value,
    in any state of the error ledger: not with zero limits, not with NaN or
    negative counters or limits. *)
Theorem Saturation_defined (s : Err.t) :
  F32.is_nan (Err.Saturation s) = false /\
  F32.le F32.zero (Err.Saturation s) = true.
Proof.
  pose proof (fold_max_floor (map (fun type => Err.GetUsage type s) Err.types)
                F32.zero eq_refl eq_refl) as H.
  exact H.
Qed.

Lemma max_zero_ratio (c l : F32.float) :
  F32.is_zero c = true -> F32.max F32.zero (F32.div c l) = F32.zero.
Proof.
  destruct c as [sc|sc| |sc mc ec]; try discriminate. intros _.
  destruct l as [sl|sl| |sl ml el]; reflexivity.
Qed.

(** X12.  When every counter is zero, [Saturation] returns 0 whatever the
    limits are, including zero, negative, infinite and NaN limits: right
    after [Reset], and after any [AdaptToPerception] that follows it. *)
Theorem Saturation_frame_start (s : Err.t) :
  (forall type, F32.is_zero (Err.Current (Err.budget_of s type)) = true) ->
  Err.Saturation s = F32.zero.
Proof.
  intros Hz. rewrite Saturation_unfold. unfold Err.GetUsage. simpl.
  rewrite !max_zero_ratio by apply Hz. reflexivity.
Qed.

Lemma Saturation_frame_start_witness :
  Err.Saturation
    (Err.AdaptToPerception (Err.mkPerceptual (F32.of_Z (-1)) F32.nan (F32.of_Z (-7)))
       fresh_error) = F32.zero.
Proof.
  apply Saturation_frame_start. intros []; reflexivity.
Defined.

(** ** Error ledger: adaptation *)

(** X13.  [AdaptToPerception] is not cumulative: it recomputes the three
    limits from the base constants, so of two calls in a row only the later
    one counts; and a [Reset] after it discards the adaptation. *)
Theorem Adapt_last_wins (p q : Err.PerceptualState) (s : Err.t) :
  Err.wf s ->
  Err.AdaptToPerception p (Err.AdaptToPerception q s) = Err.AdaptToPerception p s /\
  Err.Reset (Err.AdaptToPerception p s) = Err.Reset s.
Proof.
  intros Hwf. destruct s as [l]. unfold Err.wf in Hwf. simpl in Hwf.
  destruct (ebudgets_shape _ Hwf) as (b0&b1&b2&b3&b4&->).
  split; reflexivity.
Qed.

Lemma Adapt_last_wins_witness :
  let p := Err.mkPerceptual F32.half F32.one F32.zero in
  let q := Err.mkPerceptual (F32.of_Z 3) F32.nan F32.one in
  Err.AdaptToPerception p (Err.AdaptToPerception q fresh_error)
  = Err.AdaptToPerception p fresh_error.
Proof.
  cbv zeta. apply Adapt_last_wins. reflexivity.
Defined.

(** X14.  With all three perceptual inputs zero (of either sign),
    [AdaptToPerception] after [Reset] leaves the ledger as [Reset] left it:
    every limit is its base constant. *)
Theorem Adapt_neutral (p : Err.PerceptualState) (s : Err.t) :
  Err.wf s ->
  F32.is_zero (Err.CameraVelocity p) = true ->
  F32.is_zero (Err.FocusDepth p) = true ->
  F32.is_zero (Err.Luminance p) = true ->
  Err.AdaptToPerception p (Err.Reset s) = Err.Reset s.
Proof.
  intros Hwf Hv Hf Hl. destruct s as [l]. unfold Err.wf in Hwf. simpl in Hwf.
  destruct (ebudgets_shape _ Hwf) as (b0&b1&b2&b3&b4&->).
  destruct p as [[sv|sv| |sv mv ev] [sf|sf| |sf mf ef] [sl|sl| |sl ml el]];
    try discriminate.
  destruct sv, sf, sl; reflexivity.
Qed.

Lemma Adapt_neutral_witness :
  Err.AdaptToPerception (Err.mkPerceptual F32.zero (S754_zero true) F32.zero)
    (Err.Reset fresh_error) = Err.Reset fresh_error.
Proof.
  apply Adapt_neutral; reflexivity.
Defined.

Section ErrorRequests.

Import ErrorBudgetSystem.

Lemma ebudget_of_Request_ne t1 t2 amount s :
  t2 <> t1 -> budget_of (snd (Request t1 amount s)) t2 = budget_of s t2.
Proof.
  intros Hne. destruct (fst (Request t1 amount s)) eqn:E.
  - rewrite (ERequest_accepted _ _ _ E).
    rewrite ebudget_of_insert_ne by exact Hne. destruct s; reflexivity.
  - rewrite (ERequest_refused _ _ _ E). reflexivity.
Qed.

Lemma ERequest_verdict_local type amount s s' :
  budget_of s type = budget_of s' type ->
  fst (Request type amount s) = fst (Request type amount s').
Proof. intros H. rewrite !ERequest_verdict, H. reflexivity. Qed.

Lemma gt_nan_limit (x l : F32.float) : F32.is_nan l = true -> F32.gt x l = false.
Proof. destruct l; try discriminate. reflexivity. Qed.

Lemma gt_nan_sum (x l : F32.float) : F32.is_nan x = true -> F32.gt x l = false.
Proof. destruct x; try discriminate. destruct l; reflexivity. Qed.

Lemma add_nan (x a : F32.float) : F32.is_nan x = true -> F32.is_nan (F32.add x a) = true.
Proof. destruct x; try discriminate. reflexivity. Qed.

Lemma ERequest_nan_step type t' amount s :
  wf s ->
  F32.is_nan (Current (budget_of s type)) = true ->
  F32.is_nan (Current (budget_of (snd (Request t' amount s)) type)) = true.
Proof.
  intros Hwf Hn. destruct (decide (type = t')) as [<-|Hne].
  - assert (E : fst (Request type amount s) = true).
    { rewrite ERequest_verdict, gt_nan_sum; [reflexivity | apply add_nan, Hn]. }
    rewrite (ERequest_accepted _ _ _ E).
    rewrite ebudget_of_insert_eq by exact Hwf. simpl. apply add_nan, Hn.
  - rewrite ebudget_of_Request_ne by exact Hne. exact Hn.
Qed.

End ErrorRequests.

(** X15.  A NaN perceptual input switches admission control off for the
    category it drives: after [AdaptToPerception] with a NaN camera velocity
    every request on Temporal is admitted, whatever the amount and the
    counter; likewise NaN luminance for Spatial and NaN focus depth for
    Reflection. *)
Theorem Adapt_nan_admits_all
    (p : Err.PerceptualState) (amount : F32.float) (s : Err.t) :
  Err.wf s ->
  let s' := Err.AdaptToPerception p s in
  (F32.is_nan (Err.CameraVelocity p) = true ->
   fst (Err.Request Err.Temporal amount s') = true) /\
  (F32.is_nan (Err.Luminance p) = true ->
   fst (Err.Request Err.Spatial amount s') = true) /\
  (F32.is_nan (Err.FocusDepth p) = true ->
   fst (Err.Request Err.Reflection amount s') = true).
Proof.
  intros Hwf. cbv zeta.
  repeat split; intros Hn; rewrite ERequest_verdict, gt_nan_limit;
    try reflexivity; rewrite Adapt_budget_of by exact Hwf; simpl Err.Limit;
    destruct p as [v f l]; simpl in Hn.
  - destruct v; try discriminate. reflexivity.
  - destruct l; try discriminate. reflexivity.
  - destruct f; try discriminate. reflexivity.
Qed.

Lemma Adapt_nan_admits_all_witness :
  fst (Err.Request Err.Temporal (F32.of_Z 1000000)
         (Err.AdaptToPerception (Err.mkPerceptual F32.nan F32.zero F32.zero)
            fresh_error)) = true.
Proof.
  apply (Adapt_nan_admits_all (Err.mkPerceptual F32.nan F32.zero F32.zero)
           (F32.of_Z 1000000) fresh_error); reflexivity.
Defined.

(** X16.  A NaN counter is never repaired by requests: once a category's
    counter is NaN, every request on that category is admitted and the
    counter is still NaN after every call of any sequence of requests. *)
Theorem NaN_counter_sticks
    (type : Err.ErrorType) (calls : list (Err.ErrorType * F32.float)) (s : Err.t) :
  Err.wf s ->
  F32.is_nan (Err.Current (Err.budget_of s type)) = true ->
  (forall amount, fst (Err.Request type amount s) = true) /\
  Forall (fun s' => F32.is_nan (Err.Current (Err.budget_of s' type)) = true)
    (Err.request_trace calls s).
Proof.
  intros Hwf Hn. split.
  - intros amount. rewrite ERequest_verdict, gt_nan_sum;
      [reflexivity | apply add_nan, Hn].
  - revert s Hwf Hn. induction calls as [|[t' a] rest IH]; intros s Hwf Hn; simpl.
    + constructor.
    + constructor; [apply ERequest_nan_step; assumption|].
      apply IH; [apply ERequest_wf, Hwf | apply ERequest_nan_step; assumption].
Qed.

Lemma NaN_counter_sticks_witness :
  let s := snd (Err.Request Err.Shading F32.nan fresh_error) in
  fst (Err.Request Err.Shading (F32.of_Z 1000) s) = true /\
  Forall (fun s' => F32.is_nan (Err.Current (Err.budget_of s' Err.Shading)) = true)
    (Err.request_trace
       [(Err.Shading, F32.one); (Err.Spatial, F32.half); (Err.Shading, F32.of_Z (-3))]
       s).
Proof.
  cbv zeta.
  destruct (NaN_counter_sticks Err.Shading
              [(Err.Shading, F32.one); (Err.Spatial, F32.half);
               (Err.Shading, F32.of_Z (-3))]
              (snd (Err.Request Err.Shading F32.nan fresh_error)))
    as [Hadm Htr]; [reflexivity | reflexivity |].
  split; [apply Hadm | exact Htr].
Defined.

(** X17.  Requests on two different categories of the error ledger do not
    interfere: issued in either order they get the same two verdicts and
    leave the same ledger. *)
Theorem Request_types_commute
    (t1 t2 : Err.ErrorType) (a b : F32.float) (s : Err.t) :
  t1 <> t2 ->
  let first1 := Err.Request t1 a s in
  let then2 := Err.Request t2 b (snd first1) in
  let first2 := Err.Request t2 b s in
  let then1 := Err.Request t1 a (snd first2) in
  fst first1 = fst then1 /\ fst then2 = fst first2 /\ snd then2 = snd then1.
Proof.
  intros Hne. cbv zeta.
  assert (Hne' : t2 <> t1) by congruence.
  assert (Hidx : Err.index t1 <> Err.index t2)
    by (intros H; apply Hne, eindex_inj, H).
  pose proof (ebudget_of_Request_ne t2 t1 b s Hne) as H1.
  pose proof (ebudget_of_Request_ne t1 t2 a s Hne') as H2.
  assert (V1 : fst (Err.Request t1 a s)
               = fst (Err.Request t1 a (snd (Err.Request t2 b s))))
    by (apply ERequest_verdict_local; symmetry; exact H1).
  assert (V2 : fst (Err.Request t2 b (snd (Err.Request t1 a s)))
               = fst (Err.Request t2 b s))
    by (apply ERequest_verdict_local; exact H2).
  split; [exact V1|]. split; [exact V2|].
  destruct (fst (Err.Request t1 a s)) eqn:E1;
    destruct (fst (Err.Request t2 b s)) eqn:E2; symmetry in V1.
  - rewrite (ERequest_accepted _ _ _ V2), (ERequest_accepted _ _ _ V1).
    rewrite H1, H2.
    rewrite (ERequest_accepted _ _ _ E1), (ERequest_accepted _ _ _ E2). simpl.
    f_equal. apply list_insert_insert_ne. congruence.
  - rewrite (ERequest_refused _ _ _ V2).
    rewrite (ERequest_accepted _ _ _ V1), H1.
    rewrite (ERequest_accepted _ _ _ E1), (ERequest_refused _ _ _ E2).
    reflexivity.
  - rewrite (ERequest_accepted _ _ _ V2), H2.
    rewrite (ERequest_refused _ _ _ V1).
    rewrite (ERequest_refused _ _ _ E1), (ERequest_accepted _ _ _ E2).
    reflexivity.
  - rewrite (ERequest_refused _ _ _ V2), (ERequest_refused _ _ _ V1).
    rewrite (ERequest_refused _ _ _ E1), (ERequest_refused _ _ _ E2).
    reflexivity.
Qed.

Lemma Request_types_commute_witness :
  snd (Err.Request Err.Shading F32.half
         (snd (Err.Request Err.Temporal F32.one fresh_error)))
  = snd (Err.Request Err.Temporal F32.one
           (snd (Err.Request Err.Shading F32.half fresh_error))).
Proof.
  apply (Request_types_commute Err.Temporal Err.Shading F32.one F32.half
           fresh_error).
  discriminate.
Defined.

(** X18.  With a negative limit and a counter at zero every request for a
    non-negative amount is refused and changes nothing, the amount 0
    included (which a zero limit would admit). *)
Theorem Request_negative_limit
    (type : Err.ErrorType) (amount : F32.float) (s : Err.t) :
  F32.is_zero (Err.Current (Err.budget_of s type)) = true ->
  F32.lt (Err.Limit (Err.budget_of s type)) F32.zero = true ->
  F32.le F32.zero amount = true ->
  Err.Request type amount s = (false, s).
Proof.
  intros Hc Hl Ha. unfold Err.Request.
  destruct (Err.Current (Err.budget_of s type)) as [sc|sc| |sc mc ec];
    try discriminate.
  destruct (Err.Limit (Err.budget_of s type)) as [sl|sl| |sl ml el];
    try discriminate;
    destruct amount as [sa|sa| |sa ma ea]; try discriminate;
    destruct sl; try discriminate; destruct sa; try discriminate;
    try (destruct sc; reflexivity); reflexivity.
Qed.

Lemma Request_negative_limit_witness :
  let s := Err.AdaptToPerception
             (Err.mkPerceptual (F32.of_Z (-2)) F32.zero F32.zero) fresh_error in
  Err.Limit (Err.budget_of s Err.Temporal) = SFopp F32.c0_8 /\
  Err.Request Err.Temporal F32.zero s = (false, s) /\
  Err.Request Err.Temporal F32.half s = (false, s).
Proof.
  cbv zeta. split; [reflexivity|].
  split; apply Request_negative_limit; reflexivity.
Defined.
